(** * Default view pointers: resolution, upsert and cleanup

    A shallow embedding of
    [packages/shared/src/server/services/DefaultViewService/DefaultViewService.ts]
    over a model of the [default_views] table created by the migration
    [20260209164349_add_default_views/migration.sql].

    The table is a list of rows (the order stands for the order in which the
    database hands rows back); every service method is a computation in a
    small state-and-rejection monad over that table, so a method both
    returns a settled promise and leaves a table behind. *)

From Stdlib Require Import List String Bool Permutation.
Import ListNotations.
Open Scope string_scope.
Open Scope bool_scope.
Open Scope list_scope.

(** ** Rows of [default_views]

    [created_at] and [updated_at] are left out: no method of the service
    reads or writes them. *)

Module DefaultView.
Record t := mk {
  id : string;
  projectId : string;
  userId : option string;   (* "user_id" TEXT, nullable: [None] is NULL *)
  viewName : string;
  viewId : string
}.

(** The columns of the unique index
    [default_views_project_id_user_id_view_name_key]. *)
Definition key (d : t) : string * option string * string :=
  (projectId d, userId d, viewName d).

(** [data: { viewId }] of an update. *)
Definition withViewId (v : string) (d : t) : t :=
  mk (id d) (projectId d) (userId d) (viewName d) v.
End DefaultView.

Definition Table := list DefaultView.t.

(** Modelled from the spec: the type [DefaultViewScope] of [./types], which is
    not part of the sources; the spec gives its two values, "user" and
    "project". *)
Inductive DefaultViewScope := ScopeUser | ScopeProject.

Definition isUserScope (s : DefaultViewScope) : bool :=
  match s with ScopeUser => true | ScopeProject => false end.

(** Modelled from the spec: the type [ResolvedDefault] of [./types]; its two
    fields are the ones of the object literals [getResolvedDefault] returns. *)
Module ResolvedDefault.
Record t := mk { viewId : string; scope : DefaultViewScope }.
End ResolvedDefault.

(** Modelled from the spec: the type [IsDefaultResult] of [./types]; its three
    fields are the ones of the object literal [isViewDefault] returns. *)
Module IsDefaultResult.
Record t := mk {
  isUserDefault : bool;
  isProjectDefault : bool;
  affectedCount : nat
}.
End IsDefaultResult.

(** ** JavaScript values of a [userId]

    A parameter [userId?: string] is [None] when it is [undefined]; the local
    [userIdToUse] can moreover be [null]. *)

Inductive Nullable := JsUndefined | JsNull | JsString (s : string).

Definition ofOptional (u : option string) : Nullable :=
  match u with None => JsUndefined | Some s => JsString s end.

(** [userId ?? null] *)
Definition orNull (u : option string) : Nullable :=
  match u with None => JsNull | Some s => JsString s end.

(** Truthiness of a [userId?: string]: [undefined] and the empty string are
    falsy. *)
Definition truthy (u : option string) : bool :=
  match u with
  | None => false
  | Some s => negb (s =? "")
  end.

(** [d.userId === x] for a column value [c] (null or a string). *)
Definition strictEq (c : option string) (x : Nullable) : bool :=
  match c, x with
  | None, JsNull => true
  | Some a, JsString b => a =? b
  | _, _ => false
  end.

(** A [userId] filter of a Prisma [where]: [undefined] is no filter at all,
    [null] selects the NULL rows, a string selects the rows equal to it. *)
Definition userIdIs (x : Nullable) (d : DefaultView.t) : bool :=
  match x with
  | JsUndefined => true
  | _ => strictEq (DefaultView.userId d) x
  end.

(** The column value Prisma stores for a [userId] given in [data]. *)
Definition toColumn (x : Nullable) : option string :=
  match x with JsString s => Some s | _ => None end.

(** ** Promises over the table *)

Inductive ServiceError :=
| JsError (message : string)            (* [throw new Error(message)] *)
| P2002 (target : string)               (* unique constraint failed *)
| P2003 (field : string)                (* foreign key constraint failed *)
| P2025.                                (* record to update not found *)

Inductive Settled (A : Type) :=
| Fulfilled (a : A)
| Rejected (e : ServiceError).
Arguments Fulfilled {A} a.
Arguments Rejected {A} e.

Definition Promise (A : Type) : Type := Table -> Settled A * Table.

Definition resolve {A} (a : A) : Promise A := fun t => (Fulfilled a, t).
Definition throw {A} (e : ServiceError) : Promise A := fun t => (Rejected e, t).

(** [await m; k] *)
Definition await {A B} (m : Promise A) (k : A -> Promise B) : Promise B :=
  fun t =>
    match m t with
    | (Fulfilled a, t') => k a t'
    | (Rejected e, t') => (Rejected e, t')
    end.

Notation "x <- m ;; k" := (await m (fun x => k))
  (at level 61, m at next level, right associativity).

Definition settled {A} (r : Settled A * Table) : Settled A := fst r.
Definition tableAfter {A} (r : Settled A * Table) : Table := snd r.

(** ** The Prisma delegate [prisma.defaultView] *)

Definition keyEqb (k1 k2 : string * option string * string) : bool :=
  match k1, k2 with
  | (p1, u1, n1), (p2, u2, n2) =>
      (p1 =? p2) && (n1 =? n2) &&
      match u1, u2 with
      | None, None => true          (* NULLS NOT DISTINCT *)
      | Some a, Some b => a =? b
      | _, _ => false
      end
  end.

(** The rows the foreign keys [default_views_project_id_fkey] and
    [default_views_user_id_fkey] refer to: the ids present in "projects"
    and in "users" when a statement runs.  No method of the service writes
    to either table. *)
Record Parents := { projects : list string; users : list string }.

Definition hasProject (db : Parents) (projectId : string) : bool :=
  existsb (fun p => p =? projectId) (projects db).

(** A NULL [user_id] refers to no user and satisfies the foreign key. *)
Definition hasUser (db : Parents) (userId : option string) : bool :=
  match userId with
  | None => true
  | Some uid => existsb (fun u => u =? uid) (users db)
  end.

(** What [UPDATE ... SET view_id = viewId WHERE id = whereId] does to one
    row. *)
Definition updateRow (whereId viewId : string) (d : DefaultView.t)
    : DefaultView.t :=
  if DefaultView.id d =? whereId then DefaultView.withViewId viewId d else d.

Module prisma.
Module defaultView.

Definition findMany (where_ : DefaultView.t -> bool)
  : Promise (list DefaultView.t) :=
  fun t => (Fulfilled (filter where_ t), t).

Definition findFirst (where_ : DefaultView.t -> bool)
  : Promise (option DefaultView.t) :=
  fun t => (Fulfilled (find where_ t), t).

(** [update({ where: { id }, data: { viewId } })]: P2025 when no row has
    that [id]. *)
Definition update (whereId : string) (viewId : string)
  : Promise unit :=
  fun t =>
    if existsb (fun d => DefaultView.id d =? whereId) t
    then (Fulfilled tt, map (updateRow whereId viewId) t)
    else (Rejected P2025, t).

(** [create({ data })].  [newId] is the identifier generated for the row
    ([id] has no value in [data]) and [db] holds the parent rows.  The
    primary key and the unique index of the migration reject the insertion
    with P2002 as the row enters the indexes; the two foreign keys, checked
    once the row is in, reject it with P2003 when the project or the user
    it refers to does not exist.  A rejected insertion stores nothing. *)
Definition create (db : Parents) (newId : string)
    (projectId : string) (userId : Nullable) (viewName viewId : string)
  : Promise unit :=
  fun t =>
    let row := DefaultView.mk newId projectId (toColumn userId)
                 viewName viewId in
    if existsb (fun d => DefaultView.id d =? newId) t
    then (Rejected (P2002 "default_views_pkey"), t)
    else if existsb
              (fun d => keyEqb (DefaultView.key d) (DefaultView.key row)) t
    then (Rejected (P2002 "default_views_project_id_user_id_view_name_key"),
          t)
    else if negb (hasProject db projectId)
    then (Rejected (P2003 "default_views_project_id_fkey"), t)
    else if negb (hasUser db (toColumn userId))
    then (Rejected (P2003 "default_views_user_id_fkey"), t)
    else (Fulfilled tt, t ++ [row]).

(** [deleteMany({ where })] resolves to the number of rows deleted; zero
    rows is not an error. *)
Definition deleteMany (where_ : DefaultView.t -> bool) : Promise nat :=
  fun t => (Fulfilled (List.length (filter where_ t)),
            filter (fun d => negb (where_ d)) t).

End defaultView.
End prisma.

(** ** DefaultViewService *)

(** [where: { projectId, viewName, userId }] *)
Definition whereKey (projectId viewName : string) (userId : Nullable)
    (d : DefaultView.t) : bool :=
  (DefaultView.projectId d =? projectId) &&
  (DefaultView.viewName d =? viewName) &&
  userIdIs userId d.

(** [const userIdToUse = scope === "user" ? userId : null;] *)
Definition userIdToUse (scope : DefaultViewScope) (userId : option string)
    : Nullable :=
  if isUserScope scope then ofOptional userId else JsNull.

Definition getResolvedDefault (projectId viewName : string)
    (userId : option string) : Promise (option ResolvedDefault.t) :=
  defaults <- prisma.defaultView.findMany
                (fun d =>
                   (DefaultView.projectId d =? projectId) &&
                   (DefaultView.viewName d =? viewName) &&
                   (userIdIs (orNull userId) d || userIdIs JsNull d)) ;;
  match
    (if truthy userId
     then find (fun d => strictEq (DefaultView.userId d) (ofOptional userId))
            defaults
     else None)
  with
  | Some userDefault =>
      resolve (Some (ResolvedDefault.mk (DefaultView.viewId userDefault)
                       ScopeUser))
  | None =>
      match find (fun d => strictEq (DefaultView.userId d) JsNull) defaults
      with
      | Some projectDefault =>
          resolve (Some (ResolvedDefault.mk
                           (DefaultView.viewId projectDefault) ScopeProject))
      | None => resolve None
      end
  end.

Definition setAsDefault (db : Parents) (newId : string)
    (projectId viewId viewName : string) (scope : DefaultViewScope)
    (userId : option string) : Promise unit :=
  let userIdToUse := userIdToUse scope userId in
  if isUserScope scope && negb (truthy userId)
  then throw (JsError "userId is required for user-level defaults")
  else
    existing <- prisma.defaultView.findFirst
                  (whereKey projectId viewName userIdToUse) ;;
    match existing with
    | Some e => prisma.defaultView.update (DefaultView.id e) viewId
    | None =>
        prisma.defaultView.create db newId projectId userIdToUse viewName
          viewId
    end.

Definition clearDefault (projectId viewName : string)
    (scope : DefaultViewScope) (userId : option string) : Promise unit :=
  let userIdToUse := userIdToUse scope userId in
  if isUserScope scope && negb (truthy userId)
  then throw (JsError "userId is required for clearing user-level defaults")
  else
    _ <- prisma.defaultView.deleteMany
           (whereKey projectId viewName userIdToUse) ;;
    resolve tt.

Definition isViewDefault (viewId : string) : Promise IsDefaultResult.t :=
  defaults <- prisma.defaultView.findMany
                (fun d => DefaultView.viewId d =? viewId) ;;
  resolve (IsDefaultResult.mk
             (existsb (fun d => negb (strictEq (DefaultView.userId d) JsNull))
                defaults)
             (existsb (fun d => strictEq (DefaultView.userId d) JsNull)
                defaults)
             (List.length defaults)).

Definition cleanupOrphanedDefaults (viewId : string) : Promise unit :=
  _ <- prisma.defaultView.deleteMany
         (fun d => DefaultView.viewId d =? viewId) ;;
  resolve tt.

(** ** Sequences of calls

    The five public methods as calls, and the table a sequence of calls
    leaves behind, whether the individual promises are fulfilled or
    rejected. *)

Inductive Call :=
| GetResolvedDefault (projectId viewName : string) (userId : option string)
| SetAsDefault (db : Parents) (newId projectId viewId viewName : string)
    (scope : DefaultViewScope) (userId : option string)
| ClearDefault (projectId viewName : string)
    (scope : DefaultViewScope) (userId : option string)
| IsViewDefault (viewId : string)
| CleanupOrphanedDefaults (viewId : string).

Definition perform (c : Call) (t : Table) : Table :=
  match c with
  | GetResolvedDefault p n u => tableAfter (getResolvedDefault p n u t)
  | SetAsDefault db i p v n s u =>
      tableAfter (setAsDefault db i p v n s u t)
  | ClearDefault p n s u => tableAfter (clearDefault p n s u t)
  | IsViewDefault v => tableAfter (isViewDefault v t)
  | CleanupOrphanedDefaults v => tableAfter (cleanupOrphanedDefaults v t)
  end.

Definition performAll (cs : list Call) (t : Table) : Table :=
  fold_left (fun t' c => perform c t') cs t.

(** ** Constraints of the table *)

(** The unique index on (project_id, user_id, view_name), NULLS NOT DISTINCT:
    no two rows share the three columns, a NULL [user_id] being one value
    like any other. *)
Definition keyUnique (t : Table) : Prop := NoDup (map DefaultView.key t).

(** The primary key. *)
Definition pkUnique (t : Table) : Prop := NoDup (map DefaultView.id t).

(** The rows stored under a composite key, in table order. *)
Definition rowsOfKey (k : string * option string * string) (t : Table)
    : Table :=
  filter (fun d => keyEqb (DefaultView.key d) k) t.

(** The first row stored under a composite key. *)
Definition firstOfKey (k : string * option string * string) (t : Table)
    : option DefaultView.t :=
  find (fun d => keyEqb (DefaultView.key d) k) t.

(** The rows stored under any other key. *)
Definition rowsOffKey (k : string * option string * string) (t : Table)
    : Table :=
  filter (fun d => negb (keyEqb (DefaultView.key d) k)) t.

(** The user component of the composite key a validated call works on. *)
Definition effectiveUser (scope : DefaultViewScope) (userId : option string)
    : option string :=
  toColumn (userIdToUse scope userId).

(** The validation both mutating methods start with:
    [scope === "user" && !userId] rejects. *)
Definition passesValidation (scope : DefaultViewScope)
    (userId : option string) : bool :=
  negb (isUserScope scope && negb (truthy userId)).

(** The number of rows pointing at a view, counted row by row. *)
Fixpoint pointersTo (viewId : string) (t : Table) : nat :=
  match t with
  | [] => 0
  | d :: t' =>
      (if DefaultView.viewId d =? viewId then 1 else 0) + pointersTo viewId t'
  end.

(** What a caller with identity [u] may read: the project-wide rows and the
    rows carrying exactly the caller's [userId]. *)
Definition visibleTo (u : option string) (d : DefaultView.t) : bool :=
  match DefaultView.userId d, u with
  | None, _ => true
  | Some a, Some b => a =? b
  | Some _, None => false
  end.

(** The resolution priority in the words of the specification, a [userId]
    counting as supplied when it is a non-empty string: the caller's own row
    first, the project-wide row next, nothing otherwise. *)
Definition hasRow (t : Table) (k : string * option string * string) : Prop :=
  exists d, In d t /\ DefaultView.key d = k.

Definition noUserRow (t : Table) (p n : string) (u : option string) : Prop :=
  forall uid, u = Some uid -> uid <> "" -> ~ hasRow t (p, Some uid, n).

Inductive Resolves (t : Table) (p n : string) (u : option string)
  : option ResolvedDefault.t -> Prop :=
| ResolvesUser (uid : string) (d : DefaultView.t) :
    u = Some uid -> uid <> "" ->
    In d t -> DefaultView.key d = (p, Some uid, n) ->
    Resolves t p n u
      (Some (ResolvedDefault.mk (DefaultView.viewId d) ScopeUser))
| ResolvesProject (d : DefaultView.t) :
    noUserRow t p n u ->
    In d t -> DefaultView.key d = (p, None, n) ->
    Resolves t p n u
      (Some (ResolvedDefault.mk (DefaultView.viewId d) ScopeProject))
| ResolvesAbsent :
    noUserRow t p n u ->
    ~ hasRow t (p, None, n) ->
    Resolves t p n u None.

(** The user a call of the given scope is about, in the words of the
    specification: the supplied userId for scope "user", none for scope
    "project". *)
Definition scopedUser (scope : DefaultViewScope) (userId : option string)
    : option string :=
  match scope with
  | ScopeUser => userId
  | ScopeProject => None
  end.

(** The parent rows a pointer of the given project and user refers to
    exist. *)
Definition parentsPresent (db : Parents) (projectId : string)
    (userId : option string) : Prop :=
  In projectId (projects db) /\
  match userId with
  | Some uid => In uid (users db)
  | None => True
  end.

(** A row of the given project and user can be inserted under a generated
    identifier [i]: [i] is unused and the parent rows exist. *)
Definition insertable (db : Parents) (i : string)
    (k : string * option string * string) (t : Table) : Prop :=
  ~ In i (map DefaultView.id t) /\
  parentsPresent db (fst (fst k)) (snd (fst k)).

(** What it is for a call of [setAsDefault], settled as [r] from table [t]
    with parent rows [db] and identifier [i] at hand, to be an upsert of
    view [v] at the composite key [k]: it is fulfilled whenever the key has
    a row already or a row can be inserted; once fulfilled a row of key [k]
    holds [v]; and on a table whose primary key holds, the rows of every
    other key are what they were. *)
Definition UpsertsAt (db : Parents) (i : string)
    (k : string * option string * string)
    (v : string) (t : Table) (r : Settled unit * Table) : Prop :=
  (hasRow t k \/ insertable db i k t -> settled r = Fulfilled tt) /\
  (settled r = Fulfilled tt ->
   exists d, In d (tableAfter r) /\ DefaultView.key d = k /\
             DefaultView.viewId d = v) /\
  (pkUnique t -> rowsOffKey k (tableAfter r) = rowsOffKey k t).

(** ** Foreign keys of [default_views]

    [default_views_project_id_fkey] and [default_views_user_id_fkey] are
    declared ON DELETE CASCADE: deleting a project, or a user, deletes the
    rows of [default_views] that reference it. *)

Definition onDeleteProject (projectId : string) (t : Table) : Table :=
  filter (fun d => negb (DefaultView.projectId d =? projectId)) t.

Definition onDeleteUser (userId : string) (t : Table) : Table :=
  filter (fun d => negb (strictEq (DefaultView.userId d) (JsString userId))) t.

(** ** The router [TableViewPresetsRouter]

    The handlers of [web/src/server/api/routers/tableViewPresets.ts] that
    work on default views: [delete], [getDefault], [setAsDefault],
    [clearDefault] and [checkIsDefault]. *)

Inductive HandlerError :=
| Forbidden                       (* thrown by [throwIfNoProjectAccess] *)
| PresetServiceError              (* thrown by [TableViewService] *)
| Thrown (e : ServiceError).      (* thrown by the handler itself or by
                                     [DefaultViewService] *)

Inductive Outcome (A : Type) :=
| Returned (a : A)
| Failed (e : HandlerError).
Arguments Returned {A} a.
Arguments Failed {A} e.

Definition Handler (A : Type) : Type := Table -> Outcome A * Table.

Definition returning {A} (a : A) : Handler A := fun t => (Returned a, t).
Definition failing {A} (e : HandlerError) : Handler A :=
  fun t => (Failed e, t).

Definition andThen {A B} (m : Handler A) (k : A -> Handler B) : Handler B :=
  fun t =>
    match m t with
    | (Returned a, t') => k a t'
    | (Failed e, t') => (Failed e, t')
    end.

(** [await] of a promise of [DefaultViewService] inside a handler: a
    rejection is rethrown. *)
Definition awaitService {A} (m : Promise A) : Handler A :=
  fun t =>
    match m t with
    | (Fulfilled a, t') => (Returned a, t')
    | (Rejected e, t') => (Failed (Thrown e), t')
    end.

Notation "x <~ m ;; k" := (andThen m (fun x => k))
  (at level 61, m at next level, right associativity).

Definition outcome {A} (r : Outcome A * Table) : Outcome A := fst r.
Definition tableLeft {A} (r : Outcome A * Table) : Table := snd r.

(** The inputs of the handlers.  The schemas [GetDefaultViewInput],
    [SetDefaultViewInput], [ClearDefaultViewInput] and [CheckIsDefaultInput]
    are not part of the sources; each record has the fields its handler
    reads.  The input of [delete] is the object schema written in the
    router. *)
Module GetDefaultViewInput.
Record t := mk { projectId : string; viewName : string }.
End GetDefaultViewInput.

Module SetDefaultViewInput.
Record t := mk {
  projectId : string;
  viewId : string;
  viewName : option string;    (* tested with [!viewName] *)
  scope : DefaultViewScope
}.
End SetDefaultViewInput.

Module ClearDefaultViewInput.
Record t := mk {
  projectId : string;
  viewName : string;
  scope : DefaultViewScope
}.
End ClearDefaultViewInput.

Module CheckIsDefaultInput.
Record t := mk { projectId : string; viewId : string }.
End CheckIsDefaultInput.

Module DeleteInput.
Record t := mk { projectId : string; tableViewPresetsId : string }.
End DeleteInput.

(** [{ success: true }] *)
Record Success := { success : bool }.

Module TableViewPresetsRouter.
Section Handlers.

(** [ctx.session] and [ctx.session.user?.id]. *)
Variable Session : Type.
Variable sessionUserId : Session -> option string.

(** The decision of [throwIfNoProjectAccess], which is not part of the
    sources: whether the session has the given scope on the project. *)
Variable hasProjectAccess : Session -> string -> string -> bool.

(** [TableViewService], which is not part of the sources:
    [getTableViewPresetsById(viewId, projectId)] as the [tableName] of the
    view it resolves to, [None] when it throws; and whether
    [deleteTableViewPresets(id, projectId)] resolves.  Neither works on
    [default_views]. *)
Variable getTableViewPresetsById : string -> string -> option string.
Variable deleteTableViewPresets : string -> string -> bool.

Definition throwIfNoProjectAccess (session : Session)
    (projectId scope : string) : Handler unit :=
  if hasProjectAccess session projectId scope
  then returning tt
  else failing Forbidden.

(** [input.scope === "project" ? "TableViewPresets:CUD"
                               : "TableViewPresets:read"] *)
Definition requiredScope (scope : DefaultViewScope) : string :=
  match scope with
  | ScopeProject => "TableViewPresets:CUD"
  | ScopeUser => "TableViewPresets:read"
  end.

(** [input.scope === "user" ? ctx.session.user?.id : undefined] *)
Definition userIdFor (session : Session) (scope : DefaultViewScope)
    : option string :=
  match scope with
  | ScopeUser => sessionUserId session
  | ScopeProject => None
  end.

Definition delete (session : Session) (input : DeleteInput.t)
    : Handler Success :=
  _ <~ throwIfNoProjectAccess session (DeleteInput.projectId input)
         "TableViewPresets:CUD" ;;
  _ <~ awaitService
         (cleanupOrphanedDefaults (DeleteInput.tableViewPresetsId input)) ;;
  _ <~ (if deleteTableViewPresets (DeleteInput.tableViewPresetsId input)
             (DeleteInput.projectId input)
        then returning tt
        else failing PresetServiceError) ;;
  returning {| success := true |}.

Definition getDefault (session : Session) (input : GetDefaultViewInput.t)
    : Handler (option ResolvedDefault.t) :=
  _ <~ throwIfNoProjectAccess session (GetDefaultViewInput.projectId input)
         "TableViewPresets:read" ;;
  awaitService
    (getResolvedDefault (GetDefaultViewInput.projectId input)
       (GetDefaultViewInput.viewName input) (sessionUserId session)).

(** [db] and [newId] are, as for the service, the parent rows and the
    identifier generated when a row is created.  In the bodies of the
    handlers [setAsDefault] and [clearDefault] are the methods of
    [DefaultViewService]. *)
Definition setAsDefault (db : Parents) (newId : string) (session : Session)
    (input : SetDefaultViewInput.t) : Handler Success :=
  _ <~ throwIfNoProjectAccess session (SetDefaultViewInput.projectId input)
         (requiredScope (SetDefaultViewInput.scope input)) ;;
  viewName <~
    (if negb (truthy (SetDefaultViewInput.viewName input)) &&
        negb (String.prefix "__langfuse_" (SetDefaultViewInput.viewId input))
     then
       match getTableViewPresetsById (SetDefaultViewInput.viewId input)
               (SetDefaultViewInput.projectId input) with
       | Some tableName => returning (Some tableName)
       | None => failing PresetServiceError
       end
     else returning (SetDefaultViewInput.viewName input)) ;;
  match viewName with
  | Some name =>
      if negb (truthy (Some name))
      then failing (Thrown (JsError "viewName is required for system presets"))
      else
        _ <~ awaitService
               (setAsDefault db newId
                  (SetDefaultViewInput.projectId input)
                  (SetDefaultViewInput.viewId input)
                  name
                  (SetDefaultViewInput.scope input)
                  (userIdFor session (SetDefaultViewInput.scope input))) ;;
        returning {| success := true |}
  | None =>
      failing (Thrown (JsError "viewName is required for system presets"))
  end.

Definition clearDefault (session : Session) (input : ClearDefaultViewInput.t)
    : Handler Success :=
  _ <~ throwIfNoProjectAccess session (ClearDefaultViewInput.projectId input)
         (requiredScope (ClearDefaultViewInput.scope input)) ;;
  _ <~ awaitService
         (clearDefault
            (ClearDefaultViewInput.projectId input)
            (ClearDefaultViewInput.viewName input)
            (ClearDefaultViewInput.scope input)
            (userIdFor session (ClearDefaultViewInput.scope input))) ;;
  returning {| success := true |}.

Definition checkIsDefault (session : Session) (input : CheckIsDefaultInput.t)
    : Handler IsDefaultResult.t :=
  _ <~ throwIfNoProjectAccess session (CheckIsDefaultInput.projectId input)
         "TableViewPresets:read" ;;
  awaitService (isViewDefault (CheckIsDefaultInput.viewId input)).

End Handlers.
End TableViewPresetsRouter.

(** ** The client hook [useDefaultViewMutations]

    The requests the hook sends to the router: [viewName] is always the
    table the hook was created for. *)

Module useDefaultViewMutations.
Record Props := { tableName : string; projectId : string }.

Definition setViewAsDefault (props : Props) (viewId : string)
    (scope : DefaultViewScope) : SetDefaultViewInput.t :=
  SetDefaultViewInput.mk (projectId props) viewId (Some (tableName props))
    scope.

Definition clearViewDefault (props : Props) (scope : DefaultViewScope)
    : ClearDefaultViewInput.t :=
  ClearDefaultViewInput.mk (projectId props) (tableName props) scope.
End useDefaultViewMutations.

(** Parent rows for the examples: two projects and three users. *)
Definition exampleParents : Parents :=
  {| projects := ["P"; "Q"]; users := ["U1"; "U2"; "U3"] |}.

(** * Properties *)

Arguments keyEqb : simpl never.
Arguments DefaultView.key : simpl never.
Arguments updateRow : simpl never.

(** ** Keys and filters *)

Lemma keyEqb_eq k1 k2 : keyEqb k1 k2 = true <-> k1 = k2.
Proof.
  destruct k1 as [[p1 u1] n1], k2 as [[p2 u2] n2]; unfold keyEqb.
  rewrite !andb_true_iff, !String.eqb_eq.
  destruct u1 as [a|], u2 as [b|]; try rewrite String.eqb_eq;
    split; intros H; try (intuition congruence).
  all: inversion H; subst; auto.
Qed.

Lemma keyEqb_refl k : keyEqb k k = true.
Proof. now apply keyEqb_eq. Qed.

Lemma keyEqb_neq k1 k2 : keyEqb k1 k2 = false <-> k1 <> k2.
Proof.
  rewrite <- keyEqb_eq. destruct (keyEqb k1 k2); intuition congruence.
Qed.

Lemma key_withViewId v d :
  DefaultView.key (DefaultView.withViewId v d) = DefaultView.key d.
Proof. reflexivity. Qed.

(** A [where] on the three key columns with a [userId] that is not
    [undefined] is the comparison of the composite key. *)
Lemma whereKey_keyEqb p n x d :
  x <> JsUndefined ->
  whereKey p n x d = keyEqb (DefaultView.key d) (p, toColumn x, n).
Proof.
  intros Hx. unfold whereKey, DefaultView.key, keyEqb, userIdIs, strictEq.
  destruct x as [| |s]; try congruence; simpl;
    destruct (DefaultView.userId d); reflexivity.
Qed.

Lemma validated_defined s u :
  passesValidation s u = true -> userIdToUse s u <> JsUndefined.
Proof.
  unfold passesValidation, userIdToUse.
  destruct s, u; simpl; congruence.
Qed.

Lemma find_filter {A} (f g : A -> bool) (l : list A) :
  find f (filter g l) = find (fun a => g a && f a) l.
Proof.
  induction l as [|a l IH]; simpl; auto.
  destruct (g a); simpl; auto. destruct (f a); auto.
Qed.

Lemma find_ext_in {A} (f g : A -> bool) (l : list A) :
  (forall a, In a l -> f a = g a) -> find f l = find g l.
Proof.
  induction l as [|a l IH]; simpl; intros H; auto.
  rewrite <- (H a) by auto. destruct (f a); auto.
Qed.

Lemma filter_filter_implied {A} (f g : A -> bool) (l : list A) :
  (forall a, f a = true -> g a = true) ->
  filter f (filter g l) = filter f l.
Proof.
  intros H. induction l as [|a l IH]; simpl; auto.
  destruct (g a) eqn:Hg; simpl.
  - destruct (f a); now rewrite IH.
  - destruct (f a) eqn:Hf; auto. apply H in Hf. congruence.
Qed.

Lemma existsb_false_find_none {A} (f : A -> bool) (l : list A) :
  find f l = None -> existsb f l = false.
Proof.
  induction l as [|a l IH]; simpl; auto.
  destruct (f a); [discriminate | auto].
Qed.

Lemma existsb_id_In i (t : Table) :
  existsb (fun d => DefaultView.id d =? i) t = true <->
  In i (map DefaultView.id t).
Proof.
  rewrite existsb_exists, in_map_iff.
  split; intros [d [H1 H2]]; exists d.
  - apply String.eqb_eq in H2. auto.
  - split; auto. apply String.eqb_eq. tauto.
Qed.

(** ** getResolvedDefault *)

Lemma firstOfKey_some k t d :
  firstOfKey k t = Some d -> In d t /\ DefaultView.key d = k.
Proof.
  intros H. apply find_some in H. now rewrite keyEqb_eq in H.
Qed.

Lemma firstOfKey_none k t : firstOfKey k t = None -> ~ hasRow t k.
Proof.
  intros H [d [Hin Hk]].
  apply (find_none _ _ H) in Hin. apply keyEqb_neq in Hin. auto.
Qed.

(** The method reads the table through the first row of the caller's key
    (when the [userId] is truthy) and the first row of the project key. *)
Lemma getResolvedDefault_eq p n u t :
  getResolvedDefault p n u t =
  (Fulfilled
     match (if truthy u
            then match u with
                 | Some uid => firstOfKey (p, Some uid, n) t
                 | None => None
                 end
            else None) with
     | Some d => Some (ResolvedDefault.mk (DefaultView.viewId d) ScopeUser)
     | None =>
         match firstOfKey (p, None, n) t with
         | Some d =>
             Some (ResolvedDefault.mk (DefaultView.viewId d) ScopeProject)
         | None => None
         end
     end, t).
Proof.
  unfold getResolvedDefault, await, prisma.defaultView.findMany, resolve.
  rewrite !find_filter.
  assert (Hp : find (fun a : DefaultView.t =>
                 (DefaultView.projectId a =? p) &&
                 (DefaultView.viewName a =? n) &&
                 (userIdIs (orNull u) a || userIdIs JsNull a) &&
                 strictEq (DefaultView.userId a) JsNull) t
               = firstOfKey (p, None, n) t).
  { apply find_ext_in. intros d _.
    unfold DefaultView.key, keyEqb, userIdIs, strictEq.
    destruct u; simpl; destruct (DefaultView.userId d);
      rewrite ?andb_false_r, ?andb_true_r, ?orb_true_r, ?orb_false_r;
      reflexivity. }
  rewrite Hp. destruct u as [uid|]; simpl.
  - destruct (uid =? "") eqn:He; simpl.
    + destruct (firstOfKey (p, None, n) t); reflexivity.
    + assert (Hu : find (fun a : DefaultView.t =>
                 (DefaultView.projectId a =? p) &&
                 (DefaultView.viewName a =? n) &&
                 (userIdIs (JsString uid) a || userIdIs JsNull a) &&
                 strictEq (DefaultView.userId a) (JsString uid)) t
               = firstOfKey (p, Some uid, n) t).
      { apply find_ext_in. intros d _.
        unfold DefaultView.key, keyEqb, userIdIs, strictEq.
        destruct (DefaultView.userId d) as [a|]; simpl;
          rewrite ?andb_false_r, ?orb_false_r; auto.
        destruct (a =? uid); simpl;
          rewrite ?andb_false_r, ?andb_true_r; reflexivity. }
      simpl in Hu. rewrite Hu.
      destruct (firstOfKey (p, Some uid, n) t); [reflexivity|].
      destruct (firstOfKey (p, None, n) t); reflexivity.
  - destruct (firstOfKey (p, None, n) t); reflexivity.
Qed.

Lemma keyUnique_same_row t d1 d2 :
  keyUnique t -> In d1 t -> In d2 t ->
  DefaultView.key d1 = DefaultView.key d2 -> d1 = d2.
Proof.
  unfold keyUnique. induction t as [|a t IH]; simpl; [tauto|].
  intros Hnd E1 E2 Hk. apply NoDup_cons_iff in Hnd as [Hni Hnd].
  destruct E1 as [E1|E1], E2 as [E2|E2]; subst.
  - reflexivity.
  - exfalso. apply Hni. rewrite Hk. now apply in_map.
  - exfalso. apply Hni. rewrite <- Hk. now apply in_map.
  - auto.
Qed.

Lemma Resolves_functional t p n u r1 r2 :
  keyUnique t -> Resolves t p n u r1 -> Resolves t p n u r2 -> r1 = r2.
Proof.
  intros Hu H1 H2.
  destruct H1 as [uid1 d1 E1 N1 I1 K1 | d1 U1 I1 K1 | U1 A1];
    destruct H2 as [uid2 d2 E2 N2 I2 K2 | d2 U2 I2 K2 | U2 A2].
  - assert (uid1 = uid2) by congruence. subst uid2.
    rewrite (keyUnique_same_row t d1 d2 Hu I1 I2) by congruence. reflexivity.
  - exfalso. apply (U2 uid1 E1 N1). now exists d1.
  - exfalso. apply (U2 uid1 E1 N1). now exists d1.
  - exfalso. apply (U1 uid2 E2 N2). now exists d2.
  - rewrite (keyUnique_same_row t d1 d2 Hu I1 I2) by congruence. reflexivity.
  - exfalso. apply A2. now exists d1.
  - exfalso. apply (U1 uid2 E2 N2). now exists d2.
  - exfalso. apply A1. now exists d2.
  - reflexivity.
Qed.

Lemma getResolvedDefault_Resolves t p n u :
  exists res,
    getResolvedDefault p n u t = (Fulfilled res, t) /\ Resolves t p n u res.
Proof.
  rewrite getResolvedDefault_eq. eexists. split; [reflexivity|].
  destruct u as [uid|]; simpl.
  - destruct (uid =? "") eqn:He; simpl.
    + apply String.eqb_eq in He. subst uid.
      assert (Hno : noUserRow t p n (Some "")).
      { intros uid E N. inversion E. congruence. }
      destruct (firstOfKey (p, None, n) t) as [d|] eqn:Hp.
      * apply firstOfKey_some in Hp as [Hin Hk]. now apply ResolvesProject.
      * apply ResolvesAbsent; auto. now apply firstOfKey_none.
    + apply String.eqb_neq in He.
      destruct (firstOfKey (p, Some uid, n) t) as [d|] eqn:Hu.
      * apply firstOfKey_some in Hu as [Hin Hk].
        now apply ResolvesUser with (uid := uid).
      * assert (Hno : noUserRow t p n (Some uid)).
        { intros uid' E N. inversion E; subst uid'.
          now apply firstOfKey_none. }
        destruct (firstOfKey (p, None, n) t) as [d|] eqn:Hp.
        -- apply firstOfKey_some in Hp as [Hin Hk]. now apply ResolvesProject.
        -- apply ResolvesAbsent; auto. now apply firstOfKey_none.
  - assert (Hno : noUserRow t p n None).
    { intros uid E. discriminate. }
    destruct (firstOfKey (p, None, n) t) as [d|] eqn:Hp.
    + apply firstOfKey_some in Hp as [Hin Hk]. now apply ResolvesProject.
    + apply ResolvesAbsent; auto. now apply firstOfKey_none.
Qed.

(** C1, as amended.  For every table and every (projectId, viewName,
    optional userId), [getResolvedDefault] is fulfilled, leaves the table as
    it was, and resolves by priority: when a non-empty userId was supplied
    and a row with exactly that userId exists for (projectId, viewName), the
    result is such a row's viewId with scope "user"; otherwise, when a row
    with null userId exists, the result is such a row's viewId with scope
    "project"; otherwise the result is absent.  The result is a single
    optional value, so never both scopes; and on a table that satisfies the
    unique index it is the only value the priority rule allows. *)
Theorem getResolvedDefault_priority (t : Table) (p n : string)
    (u : option string) :
  exists res,
    getResolvedDefault p n u t = (Fulfilled res, t) /\
    Resolves t p n u res /\
    (keyUnique t -> forall res', Resolves t p n u res' -> res' = res).
Proof.
  destruct (getResolvedDefault_Resolves t p n u) as [res [E R]].
  exists res. repeat split; auto.
  intros Hu res' R'. now apply (Resolves_functional t p n u).
Qed.

(** C1, as stated, fails: a userId that is the empty string is supplied, a
    row with exactly that userId exists, and yet no result of scope "user"
    comes back. *)
Lemma getResolvedDefault_empty_userId_not_user_scope :
  ~ (forall (t : Table) (p n uid : string) (d : DefaultView.t),
        In d t -> DefaultView.key d = (p, Some uid, n) ->
        exists d',
          In d' t /\ DefaultView.key d' = (p, Some uid, n) /\
          settled (getResolvedDefault p n (Some uid) t) =
          Fulfilled
            (Some (ResolvedDefault.mk (DefaultView.viewId d') ScopeUser))).
Proof.
  intros H.
  destruct (H [DefaultView.mk "dv1" "P" (Some "") "traces" "A"]
              "P" "traces" ""
              (DefaultView.mk "dv1" "P" (Some "") "traces" "A"))
    as [d' [_ [_ E]]].
  - simpl. auto.
  - reflexivity.
  - vm_compute in E. discriminate.
Qed.

(** C10.  An empty-string userId is an absent user: [getResolvedDefault]
    called with userId = "" gives exactly what it gives without a userId,
    which is never a result of scope "user", even on a table that holds a
    row whose userId is ""; [setAsDefault] and [clearDefault] called with
    scope "user" and userId = "" are rejected with their validation errors
    and leave the table as it was. *)
Theorem empty_userId_is_absent (db : Parents) (t : Table)
    (newId p v n : string) :
  getResolvedDefault p n (Some "") t = getResolvedDefault p n None t /\
  (forall r, settled (getResolvedDefault p n (Some "") t) = Fulfilled (Some r)
             -> ResolvedDefault.scope r = ScopeProject) /\
  settled (getResolvedDefault "P" "traces" (Some "")
             [DefaultView.mk "dv1" "P" (Some "") "traces" "A"])
    = Fulfilled None /\
  setAsDefault db newId p v n ScopeUser (Some "") t =
    (Rejected (JsError "userId is required for user-level defaults"), t) /\
  clearDefault p n ScopeUser (Some "") t =
    (Rejected (JsError "userId is required for clearing user-level defaults"),
     t).
Proof.
  repeat split.
  - now rewrite !getResolvedDefault_eq.
  - intros r. rewrite getResolvedDefault_eq. simpl.
    destruct (firstOfKey (p, None, n) t); intros E; inversion E; reflexivity.
Qed.

(** C4.  With scope "user" and no userId supplied, [setAsDefault] and
    [clearDefault] are both rejected with a validation error and the table is
    left exactly as it was; no row is created. *)
Theorem user_scope_without_userId_rejected (db : Parents) (t : Table)
    (newId p v n : string) :
  setAsDefault db newId p v n ScopeUser None t =
    (Rejected (JsError "userId is required for user-level defaults"), t) /\
  clearDefault p n ScopeUser None t =
    (Rejected (JsError "userId is required for clearing user-level defaults"),
     t).
Proof. split; reflexivity. Qed.

(** ** setAsDefault *)

Lemma updateRow_key i v d :
  DefaultView.key (updateRow i v d) = DefaultView.key d.
Proof. unfold updateRow. now destruct (DefaultView.id d =? i). Qed.

Lemma updateRow_id i v d :
  DefaultView.id (updateRow i v d) = DefaultView.id d.
Proof. unfold updateRow. now destruct (DefaultView.id d =? i). Qed.

Lemma updateRow_idem i v d : updateRow i v (updateRow i v d) = updateRow i v d.
Proof.
  unfold updateRow at 2 3.
  destruct (DefaultView.id d =? i) eqn:E; unfold updateRow; simpl; now rewrite E.
Qed.

Lemma updateRow_self v d :
  updateRow (DefaultView.id d) v d = DefaultView.withViewId v d.
Proof. unfold updateRow. now rewrite String.eqb_refl. Qed.

Lemma map_key_updateRow i v (t : Table) :
  map DefaultView.key (map (updateRow i v) t) = map DefaultView.key t.
Proof. rewrite map_map. apply map_ext. intros d. apply updateRow_key. Qed.

Lemma rowsOfKey_updateRow k i v (t : Table) :
  rowsOfKey k (map (updateRow i v) t) = map (updateRow i v) (rowsOfKey k t).
Proof.
  unfold rowsOfKey. induction t as [|d t IH]; cbn [map filter]; auto.
  rewrite updateRow_key. destruct (keyEqb (DefaultView.key d) k);
    cbn [map]; now rewrite IH.
Qed.

Lemma firstOfKey_updateRow k i v (t : Table) :
  firstOfKey k (map (updateRow i v) t) =
  option_map (updateRow i v) (firstOfKey k t).
Proof.
  unfold firstOfKey. induction t as [|d t IH]; cbn [map find]; auto.
  rewrite updateRow_key. now destruct (keyEqb (DefaultView.key d) k).
Qed.

Lemma rowsOfKey_no_key k (t : Table) :
  ~ In k (map DefaultView.key t) -> rowsOfKey k t = [].
Proof.
  unfold rowsOfKey. induction t as [|d t IH]; simpl; auto.
  intros H. destruct (keyEqb (DefaultView.key d) k) eqn:E.
  - apply keyEqb_eq in E. tauto.
  - apply IH. tauto.
Qed.

Lemma firstOfKey_none_no_key k (t : Table) :
  firstOfKey k t = None -> ~ In k (map DefaultView.key t).
Proof.
  intros H Hin. apply in_map_iff in Hin as [d [Hk Hin]].
  apply (firstOfKey_none k t H). now exists d.
Qed.

(** Under the unique index the first row of a key is its only row. *)
Lemma rowsOfKey_unique k (t : Table) e :
  keyUnique t -> firstOfKey k t = Some e -> rowsOfKey k t = [e].
Proof.
  unfold keyUnique, firstOfKey, rowsOfKey.
  induction t as [|d t IH]; simpl; [discriminate|].
  intros Hnd. apply NoDup_cons_iff in Hnd as [Hni Hnd].
  destruct (keyEqb (DefaultView.key d) k) eqn:E.
  - intros H. inversion H; subst e. f_equal.
    apply keyEqb_eq in E. subst k. now apply rowsOfKey_no_key.
  - auto.
Qed.

Lemma find_app {A} (f : A -> bool) (l1 l2 : list A) :
  find f (l1 ++ l2) =
  match find f l1 with Some a => Some a | None => find f l2 end.
Proof.
  induction l1 as [|a l1 IH]; simpl; auto. now destruct (f a).
Qed.

Lemma NoDup_snoc {A} (l : list A) (a : A) :
  NoDup l -> ~ In a l -> NoDup (l ++ [a]).
Proof.
  induction l as [|b l IH]; simpl; intros Hnd Hni.
  - constructor; [tauto | constructor].
  - apply NoDup_cons_iff in Hnd as [Hb Hnd]. constructor.
    + rewrite in_app_iff. simpl. intuition congruence.
    + apply IH; tauto.
Qed.

Lemma map_updateRow_fresh i v (t : Table) :
  ~ In i (map DefaultView.id t) -> map (updateRow i v) t = t.
Proof.
  induction t as [|d t IH]; simpl; auto.
  intros H. rewrite IH by tauto. f_equal.
  unfold updateRow. destruct (DefaultView.id d =? i) eqn:E; auto.
  apply String.eqb_eq in E. tauto.
Qed.

Lemma passesValidation_guard s u :
  passesValidation s u = true -> isUserScope s && negb (truthy u) = false.
Proof. unfold passesValidation. now destruct (isUserScope s && negb (truthy u)). Qed.

(** The update branch: a row of the key exists. *)
Lemma setAsDefault_existing db i p v n s u t e :
  passesValidation s u = true ->
  firstOfKey (p, effectiveUser s u, n) t = Some e ->
  setAsDefault db i p v n s u t =
  (Fulfilled tt, map (updateRow (DefaultView.id e) v) t).
Proof.
  intros Hv He. unfold setAsDefault.
  rewrite (passesValidation_guard s u Hv).
  unfold await, prisma.defaultView.findFirst.
  rewrite (find_ext_in _ (fun d => keyEqb (DefaultView.key d)
                                     (p, effectiveUser s u, n)))
    by (intros d _; apply whereKey_keyEqb; now apply validated_defined).
  fold (firstOfKey (p, effectiveUser s u, n) t). rewrite He.
  unfold prisma.defaultView.update.
  assert (Hex : existsb (fun d => DefaultView.id d =? DefaultView.id e) t
                = true).
  { apply existsb_id_In. apply in_map. now apply firstOfKey_some in He. }
  now rewrite Hex.
Qed.

Lemma hasProject_In db p : hasProject db p = true <-> In p (projects db).
Proof.
  unfold hasProject. rewrite existsb_exists. split.
  - intros [q [Hq E]]. apply String.eqb_eq in E. now subst.
  - intros H. exists p. split; auto. apply String.eqb_refl.
Qed.

Lemma hasUser_In db u :
  hasUser db u = true <->
  match u with Some uid => In uid (users db) | None => True end.
Proof.
  destruct u as [uid|]; cbn [hasUser]; [|tauto].
  rewrite existsb_exists. split.
  - intros [q [Hq E]]. apply String.eqb_eq in E. now subst.
  - intros H. exists uid. split; auto. apply String.eqb_refl.
Qed.

(** The effective user the code computes is the user the scope names. *)
Lemma effectiveUser_scopedUser s u : effectiveUser s u = scopedUser s u.
Proof. destruct s, u; reflexivity. Qed.

(** The create branch: no row of the key exists; the primary key and the
    foreign keys decide. *)
Lemma setAsDefault_missing db i p v n s u t :
  passesValidation s u = true ->
  firstOfKey (p, effectiveUser s u, n) t = None ->
  setAsDefault db i p v n s u t =
  if existsb (fun d => DefaultView.id d =? i) t
  then (Rejected (P2002 "default_views_pkey"), t)
  else if negb (hasProject db p)
  then (Rejected (P2003 "default_views_project_id_fkey"), t)
  else if negb (hasUser db (effectiveUser s u))
  then (Rejected (P2003 "default_views_user_id_fkey"), t)
  else (Fulfilled tt, t ++ [DefaultView.mk i p (effectiveUser s u) n v]).
Proof.
  intros Hv He. unfold setAsDefault.
  rewrite (passesValidation_guard s u Hv).
  unfold await, prisma.defaultView.findFirst.
  rewrite (find_ext_in _ (fun d => keyEqb (DefaultView.key d)
                                     (p, effectiveUser s u, n)))
    by (intros d _; apply whereKey_keyEqb; now apply validated_defined).
  fold (firstOfKey (p, effectiveUser s u, n) t). rewrite He.
  unfold prisma.defaultView.create.
  destruct (existsb (fun d => DefaultView.id d =? i) t); auto.
  unfold firstOfKey in He. apply existsb_false_find_none in He.
  unfold effectiveUser in *. unfold DefaultView.key at 2. simpl.
  now rewrite He.
Qed.

(** The create branch when a row can be inserted. *)
Lemma setAsDefault_inserts db i p v n s u t :
  passesValidation s u = true ->
  firstOfKey (p, effectiveUser s u, n) t = None ->
  insertable db i (p, effectiveUser s u, n) t ->
  setAsDefault db i p v n s u t =
  (Fulfilled tt, t ++ [DefaultView.mk i p (effectiveUser s u) n v]).
Proof.
  intros Hv He [Hfresh [Hp Hu]]. cbn [fst snd] in Hp, Hu.
  rewrite (setAsDefault_missing db i p v n s u t Hv He).
  destruct (existsb (fun d => DefaultView.id d =? i) t) eqn:Ex.
  { apply existsb_id_In in Ex. tauto. }
  apply hasProject_In in Hp. apply hasUser_In in Hu.
  now rewrite Hp, Hu.
Qed.

(** Overwriting the row of a key keeps the unique index, keeps the row where
    it is and leaves it the only row of its key. *)
Lemma setAsDefault_overwrites db i p v n s u t e :
  keyUnique t ->
  passesValidation s u = true ->
  firstOfKey (p, effectiveUser s u, n) t = Some e ->
  let t' := map (updateRow (DefaultView.id e) v) t in
  setAsDefault db i p v n s u t = (Fulfilled tt, t') /\
  keyUnique t' /\
  firstOfKey (p, effectiveUser s u, n) t' = Some (DefaultView.withViewId v e) /\
  rowsOfKey (p, effectiveUser s u, n) t' = [DefaultView.withViewId v e].
Proof.
  intros Hu Hv He t'. subst t'. repeat split.
  - now apply setAsDefault_existing.
  - unfold keyUnique. now rewrite map_key_updateRow.
  - rewrite firstOfKey_updateRow, He. simpl. now rewrite updateRow_self.
  - rewrite rowsOfKey_updateRow, (rowsOfKey_unique _ _ _ Hu He). simpl.
    now rewrite updateRow_self.
Qed.

(** After a first validated call with a fresh identifier at hand, the key
    has a first row holding the view, and writing the same view to the rows
    of its identifier changes nothing. *)
Lemma setAsDefault_first_call db i p v n s u t :
  keyUnique t ->
  passesValidation s u = true ->
  insertable db i (p, effectiveUser s u, n) t ->
  exists t1 row1,
    setAsDefault db i p v n s u t = (Fulfilled tt, t1) /\
    keyUnique t1 /\
    firstOfKey (p, effectiveUser s u, n) t1 = Some row1 /\
    DefaultView.viewId row1 = v /\
    map (updateRow (DefaultView.id row1) v) t1 = t1.
Proof.
  intros Hu Hv Hins. pose proof Hins as [Hfresh _].
  destruct (firstOfKey (p, effectiveUser s u, n) t) as [e|] eqn:He.
  - destruct (setAsDefault_overwrites db i p v n s u t e Hu Hv He)
      as [E [U [F _]]].
    exists (map (updateRow (DefaultView.id e) v) t).
    exists (DefaultView.withViewId v e).
    repeat split; auto.
    simpl. rewrite map_map. apply map_ext. intros d. apply updateRow_idem.
  - exists (t ++ [DefaultView.mk i p (effectiveUser s u) n v]).
    exists (DefaultView.mk i p (effectiveUser s u) n v).
    repeat split.
    + now apply setAsDefault_inserts.
    + unfold keyUnique. rewrite map_app. simpl. apply NoDup_snoc; auto.
      now apply firstOfKey_none_no_key.
    + unfold firstOfKey in *. rewrite find_app, He. simpl.
      now rewrite keyEqb_refl.
    + cbn [DefaultView.id].
      rewrite map_app, (map_updateRow_fresh i v t Hfresh).
      unfold updateRow. simpl. now rewrite String.eqb_refl.
Qed.

(** C2.  [setAsDefault] is idempotent and converges to a single row per key.
    The composite key is (projectId, userId, viewName) for scope "user" and
    (projectId, null, viewName) for scope "project".  On a table that
    satisfies the unique index, for a call that passes the validation, and
    with an unused identifier at hand and the project and the user present
    for the row the first call may have to create: calling [setAsDefault]
    twice with the same (projectId, viewName, scope, userId) and the same
    viewId fulfils both calls, the second call changes nothing, and exactly
    one row is left for the composite key, holding that viewId; a further
    call with a different viewId overwrites the viewId of that same row,
    whose id is unchanged, and creates no second row. *)
Theorem setAsDefault_idempotent_converges
    (db1 db2 db3 : Parents) (t : Table)
    (newId1 newId2 newId3 p n vid vid' : string)
    (s : DefaultViewScope) (u : option string) :
  keyUnique t ->
  passesValidation s u = true ->
  ~ In newId1 (map DefaultView.id t) ->
  parentsPresent db1 p (scopedUser s u) ->
  let k := (p, match s with ScopeUser => u | ScopeProject => None end, n) in
  let r1 := setAsDefault db1 newId1 p vid n s u t in
  let r2 := setAsDefault db2 newId2 p vid n s u (tableAfter r1) in
  let r3 := setAsDefault db3 newId3 p vid' n s u (tableAfter r2) in
  settled r1 = Fulfilled tt /\
  settled r2 = Fulfilled tt /\
  settled r3 = Fulfilled tt /\
  tableAfter r2 = tableAfter r1 /\
  exists row,
    rowsOfKey k (tableAfter r2) = [row] /\
    DefaultView.viewId row = vid /\
    rowsOfKey k (tableAfter r3) = [DefaultView.withViewId vid' row] /\
    DefaultView.id (DefaultView.withViewId vid' row) = DefaultView.id row /\
    tableAfter r3 = map (updateRow (DefaultView.id row) vid') (tableAfter r2) /\
    List.length (tableAfter r3) = List.length (tableAfter r2).
Proof.
  intros Hu Hv Hfresh Hpar k r1 r2 r3.
  rewrite <- effectiveUser_scopedUser in Hpar.
  assert (Hins : insertable db1 newId1 (p, effectiveUser s u, n) t)
    by (split; assumption).
  destruct (setAsDefault_first_call db1 newId1 p vid n s u t Hu Hv Hins)
    as [t1 [row1 [E1 [U1 [F1 [V1 Fix1]]]]]].
  destruct (setAsDefault_overwrites db2 newId2 p vid n s u t1 row1 U1 Hv F1)
    as [E2 [U2 [F2 R2]]].
  rewrite Fix1 in E2, U2, F2, R2.
  assert (Hrow : DefaultView.withViewId vid row1 = row1).
  { destruct row1; simpl in *. now subst. }
  rewrite Hrow in F2, R2.
  destruct (setAsDefault_overwrites db3 newId3 p vid' n s u t1 row1 U2 Hv F2)
    as [E3 [U3 [F3 R3]]].
  subst r1 r2 r3 k. unfold settled, tableAfter.
  change (match s with ScopeUser => u | ScopeProject => None end)
    with (scopedUser s u).
  rewrite <- effectiveUser_scopedUser.
  rewrite E1. cbn [fst snd]. rewrite E2. cbn [fst snd]. rewrite E3.
  cbn [fst snd].
  do 4 (split; [reflexivity|]).
  exists row1. do 5 (split; [auto|]).
  now rewrite length_map.
Qed.

(** An instance of C2: user U1 sets a personal default for ("P", "traces")
    next to the project-wide pointer; the first call creates the row. *)
Lemma setAsDefault_idempotent_converges_witness :
  let t := [DefaultView.mk "dv1" "P" None "traces" "A"] in
  let r1 := setAsDefault exampleParents "dv2" "P" "B" "traces" ScopeUser
              (Some "U1") t in
  let r2 := setAsDefault exampleParents "dv3" "P" "B" "traces" ScopeUser
              (Some "U1") (tableAfter r1) in
  let r3 := setAsDefault exampleParents "dv4" "P" "C" "traces" ScopeUser
              (Some "U1") (tableAfter r2) in
  settled r1 = Fulfilled tt /\
  settled r2 = Fulfilled tt /\
  settled r3 = Fulfilled tt /\
  tableAfter r2 = tableAfter r1 /\
  exists row,
    rowsOfKey ("P", Some "U1", "traces") (tableAfter r2) = [row] /\
    DefaultView.viewId row = "B" /\
    rowsOfKey ("P", Some "U1", "traces") (tableAfter r3) =
      [DefaultView.withViewId "C" row] /\
    DefaultView.id (DefaultView.withViewId "C" row) = DefaultView.id row /\
    tableAfter r3 = map (updateRow (DefaultView.id row) "C") (tableAfter r2) /\
    List.length (tableAfter r3) = List.length (tableAfter r2).
Proof.
  apply (setAsDefault_idempotent_converges
           exampleParents exampleParents exampleParents
           [DefaultView.mk "dv1" "P" None "traces" "A"]
           "dv2" "dv3" "dv4" "P" "traces" "B" "C" ScopeUser (Some "U1")).
  - unfold keyUnique. simpl. constructor; [simpl; tauto | constructor].
  - reflexivity.
  - simpl. intros [H|[]]. discriminate.
  - split; simpl; auto.
Defined.

(** ** The unique index along sequences of calls *)

Lemma NoDup_map_filter {A B} (f : A -> B) (g : A -> bool) (l : list A) :
  NoDup (map f l) -> NoDup (map f (filter g l)).
Proof.
  induction l as [|a l IH]; simpl; auto.
  intros H. apply NoDup_cons_iff in H as [Hni Hnd].
  destruct (g a); simpl; auto.
  constructor; auto.
  intros Hin. apply Hni. apply in_map_iff in Hin as [b [E Hb]].
  apply filter_In in Hb as [Hb _]. rewrite <- E. now apply in_map.
Qed.

Lemma setAsDefault_keyUnique db i p v n s u t :
  keyUnique t -> keyUnique (tableAfter (setAsDefault db i p v n s u t)).
Proof.
  intros Hu. unfold setAsDefault.
  destruct (isUserScope s && negb (truthy u)); [exact Hu|].
  unfold await, prisma.defaultView.findFirst.
  destruct (find (whereKey p n (userIdToUse s u)) t) as [e|].
  - unfold prisma.defaultView.update.
    destruct (existsb (fun d => DefaultView.id d =? DefaultView.id e) t);
      [|exact Hu].
    unfold tableAfter, keyUnique. cbn [snd]. now rewrite map_key_updateRow.
  - unfold prisma.defaultView.create.
    destruct (existsb (fun d => DefaultView.id d =? i) t); [exact Hu|].
    match goal with
    | |- context [existsb ?f t] => destruct (existsb f t) eqn:Ex
    end; [exact Hu|].
    destruct (negb (hasProject db p)); [exact Hu|].
    destruct (negb (hasUser db (toColumn (userIdToUse s u)))); [exact Hu|].
    unfold tableAfter, keyUnique. cbn [snd]. rewrite map_app. cbn [map].
    apply NoDup_snoc; [exact Hu|].
    intros Hin. apply in_map_iff in Hin as [d [Hk Hd]].
    assert (Hc : existsb
                   (fun d0 => keyEqb (DefaultView.key d0)
                      (DefaultView.key
                         (DefaultView.mk i p (toColumn (userIdToUse s u)) n v)))
                   t = true).
    { apply existsb_exists. exists d. split; auto. now apply keyEqb_eq. }
    congruence.
Qed.

Lemma perform_keyUnique c t : keyUnique t -> keyUnique (perform c t).
Proof.
  intros Hu. destruct c; cbn [perform].
  - now rewrite getResolvedDefault_eq.
  - now apply setAsDefault_keyUnique.
  - unfold clearDefault.
    destruct (isUserScope scope && negb (truthy userId)); [exact Hu|].
    unfold tableAfter, await, prisma.defaultView.deleteMany, resolve, keyUnique.
    cbn [snd]. now apply NoDup_map_filter.
  - exact Hu.
  - unfold cleanupOrphanedDefaults, tableAfter, await,
      prisma.defaultView.deleteMany, resolve, keyUnique.
    cbn [snd]. now apply NoDup_map_filter.
Qed.

(** C3.  The uniqueness invariant, at most one row per (projectId, userId,
    viewName) with a null userId counting as one value, holds in every state
    reached from a state that satisfies it by any sequence of the five
    operations; in such a state any two rows of the same key, and so any
    two rows with null userId for the same (projectId, viewName), are one and
    the same row. *)
Theorem keyUnique_invariant (cs : list Call) (t : Table) :
  keyUnique t ->
  keyUnique (performAll cs t) /\
  forall d1 d2,
    In d1 (performAll cs t) -> In d2 (performAll cs t) ->
    DefaultView.key d1 = DefaultView.key d2 -> d1 = d2.
Proof.
  intros Hu.
  assert (H : keyUnique (performAll cs t)).
  { revert t Hu. unfold performAll.
    induction cs as [|c cs IH]; intros t Hu; cbn [fold_left]; auto.
    apply IH. now apply perform_keyUnique. }
  split; [exact H|].
  intros d1 d2. now apply keyUnique_same_row.
Qed.

(** An instance of C3, from the empty table: two users and the project set
    defaults, one is cleared, a view is cleaned up. *)
Lemma keyUnique_invariant_witness :
  let cs := [SetAsDefault exampleParents "dv1" "P" "A" "traces"
               ScopeUser (Some "U1");
             SetAsDefault exampleParents "dv2" "P" "B" "traces"
               ScopeProject None;
             SetAsDefault exampleParents "dv3" "P" "C" "traces"
               ScopeProject (Some "U2");
             GetResolvedDefault "P" "traces" (Some "U1");
             ClearDefault "P" "traces" ScopeUser (Some "U2");
             IsViewDefault "A";
             CleanupOrphanedDefaults "A"] in
  keyUnique (performAll cs []) /\
  forall d1 d2,
    In d1 (performAll cs []) -> In d2 (performAll cs []) ->
    DefaultView.key d1 = DefaultView.key d2 -> d1 = d2.
Proof.
  intros cs. apply (keyUnique_invariant cs []). constructor.
Defined.

(** ** The composite key a mutation works on *)

Lemma NoDup_map_same {A B} (f : A -> B) (l : list A) a b :
  NoDup (map f l) -> In a l -> In b l -> f a = f b -> a = b.
Proof.
  induction l as [|c l IH]; simpl; [tauto|].
  intros Hnd Ea Eb Hf. apply NoDup_cons_iff in Hnd as [Hni Hnd].
  destruct Ea as [Ea|Ea], Eb as [Eb|Eb]; subst.
  - reflexivity.
  - exfalso. apply Hni. rewrite Hf. now apply in_map.
  - exfalso. apply Hni. rewrite <- Hf. now apply in_map.
  - auto.
Qed.

Lemma filter_all {A} (f : A -> bool) (l : list A) :
  (forall a, In a l -> f a = true) -> filter f l = l.
Proof.
  induction l as [|a l IH]; simpl; intros H; auto.
  rewrite (H a) by auto. f_equal. auto.
Qed.

Lemma clearDefault_eq p n s u t :
  passesValidation s u = true ->
  clearDefault p n s u t =
  (Fulfilled tt, rowsOffKey (p, effectiveUser s u, n) t).
Proof.
  intros Hv. unfold clearDefault.
  rewrite (passesValidation_guard s u Hv).
  unfold await, prisma.defaultView.deleteMany, resolve, rowsOffKey.
  f_equal. apply filter_ext. intros d. f_equal.
  apply whereKey_keyEqb. now apply validated_defined.
Qed.

Lemma rowsOffKey_updateRow_other k e v (t : Table) :
  pkUnique t -> In e t -> DefaultView.key e = k ->
  rowsOffKey k (map (updateRow (DefaultView.id e) v) t) = rowsOffKey k t.
Proof.
  intros Hpk He Hk.
  assert (H : forall d, In d t -> DefaultView.key d <> k ->
                        updateRow (DefaultView.id e) v d = d).
  { intros d Hd Hne. unfold updateRow.
    destruct (DefaultView.id d =? DefaultView.id e) eqn:E; auto.
    apply String.eqb_eq in E.
    rewrite (NoDup_map_same DefaultView.id t d e Hpk Hd He E) in Hne.
    congruence. }
  clear Hpk He. unfold rowsOffKey.
  induction t as [|d t IH]; cbn [map filter]; auto.
  rewrite updateRow_key.
  destruct (keyEqb (DefaultView.key d) k) eqn:E; cbn [negb].
  - apply IH. intros; apply H; simpl; auto.
  - apply keyEqb_neq in E. rewrite (H d) by (simpl; auto). f_equal.
    apply IH. intros; apply H; simpl; auto.
Qed.

Lemma setAsDefault_UpsertsAt db i p v n s u t :
  passesValidation s u = true ->
  UpsertsAt db i (p, effectiveUser s u, n) v t (setAsDefault db i p v n s u t).
Proof.
  intros Hv. unfold UpsertsAt, settled, tableAfter.
  destruct (firstOfKey (p, effectiveUser s u, n) t) as [e|] eqn:He.
  - rewrite (setAsDefault_existing db i p v n s u t e Hv He). cbn [fst snd].
    apply firstOfKey_some in He as [Hin Hk].
    repeat split; auto.
    + intros _. exists (DefaultView.withViewId v e). repeat split; auto.
      rewrite <- (updateRow_self v e). now apply in_map.
    + intros Hpk. now apply rowsOffKey_updateRow_other.
  - split; [|split].
    + intros [Hr|Hins]; [now apply firstOfKey_none in He|].
      now rewrite (setAsDefault_inserts db i p v n s u t Hv He Hins).
    + rewrite (setAsDefault_missing db i p v n s u t Hv He).
      destruct (existsb (fun d => DefaultView.id d =? i) t);
        [discriminate|].
      destruct (negb (hasProject db p)); [discriminate|].
      destruct (negb (hasUser db (effectiveUser s u))); [discriminate|].
      cbn [fst snd]. intros _.
      exists (DefaultView.mk i p (effectiveUser s u) n v).
      repeat split. apply in_app_iff. simpl. auto.
    + rewrite (setAsDefault_missing db i p v n s u t Hv He).
      destruct (existsb (fun d => DefaultView.id d =? i) t); [reflexivity|].
      destruct (negb (hasProject db p)); [reflexivity|].
      destruct (negb (hasUser db (effectiveUser s u))); [reflexivity|].
      cbn [fst snd]. intros _. unfold rowsOffKey. rewrite filter_app.
      cbn [filter]. unfold DefaultView.key at 2.
      cbn [DefaultView.projectId DefaultView.userId DefaultView.viewName].
      rewrite keyEqb_refl. cbn [negb]. now rewrite app_nil_r.
Qed.

(** C5.  With scope "project" the effective user is null whatever userId is
    supplied: [setAsDefault] and [clearDefault] do exactly what they do
    without a userId, [clearDefault] deletes the rows of (projectId, null,
    viewName) and [setAsDefault] is an upsert at that key.  With scope "user"
    the effective user is exactly the supplied userId, and for a userId that
    passes the validation both methods work on (projectId, userId,
    viewName).  The upsert is fulfilled when the key has a row, or when the
    generated id is unused and the project and the user of the key exist;
    rows of every other key are left as they were. *)
Theorem effective_user_of_scope (db : Parents) (t : Table)
    (newId p v n : string) (u : option string) :
  userIdToUse ScopeProject u = JsNull /\
  userIdToUse ScopeUser u = ofOptional u /\
  setAsDefault db newId p v n ScopeProject u t =
    setAsDefault db newId p v n ScopeProject None t /\
  clearDefault p n ScopeProject u t = clearDefault p n ScopeProject None t /\
  clearDefault p n ScopeProject u t =
    (Fulfilled tt, rowsOffKey (p, None, n) t) /\
  UpsertsAt db newId (p, None, n) v t
    (setAsDefault db newId p v n ScopeProject u t) /\
  forall uid, u = Some uid -> uid <> "" ->
    clearDefault p n ScopeUser u t =
      (Fulfilled tt, rowsOffKey (p, Some uid, n) t) /\
    UpsertsAt db newId (p, Some uid, n) v t
      (setAsDefault db newId p v n ScopeUser u t).
Proof.
  do 4 (split; [reflexivity|]).
  split; [now apply clearDefault_eq|].
  split; [now apply (setAsDefault_UpsertsAt db newId p v n ScopeProject u t)|].
  intros uid Eu Hne. subst u.
  assert (Hv : passesValidation ScopeUser (Some uid) = true).
  { unfold passesValidation. simpl. apply String.eqb_neq in Hne.
    now rewrite Hne. }
  split.
  - now apply clearDefault_eq.
  - now apply (setAsDefault_UpsertsAt db newId p v n ScopeUser (Some uid) t).
Qed.



(** ** Pointers to a view *)

Lemma pointersTo_length v (t : Table) :
  List.length (filter (fun d => DefaultView.viewId d =? v) t) = pointersTo v t.
Proof.
  induction t as [|d t IH]; simpl; auto.
  destruct (DefaultView.viewId d =? v); simpl; now rewrite IH.
Qed.

Lemma filter_none {A} (f : A -> bool) (l : list A) :
  filter f (filter (fun a => negb (f a)) l) = [].
Proof.
  induction l as [|a l IH]; simpl; auto.
  destruct (f a) eqn:E; simpl; auto. now rewrite E.
Qed.

Lemma cleanupOrphanedDefaults_eq v t :
  cleanupOrphanedDefaults v t =
  (Fulfilled tt, filter (fun d => negb (DefaultView.viewId d =? v)) t).
Proof. reflexivity. Qed.

(** C7.  [isViewDefault V] is fulfilled and leaves the table as it was;
    isUserDefault is true exactly when some row with viewId V has a non-null
    userId, isProjectDefault is true exactly when some row with viewId V has
    a null userId, and affectedCount is the number of rows with viewId V,
    which exceeds 2 on a table that satisfies the unique index as soon as
    three users point at the same view. *)
Theorem isViewDefault_result (t : Table) (v : string) :
  (exists res,
    isViewDefault v t = (Fulfilled res, t) /\
    (IsDefaultResult.isUserDefault res = true <->
     exists d, In d t /\ DefaultView.viewId d = v /\
               DefaultView.userId d <> None) /\
    (IsDefaultResult.isProjectDefault res = true <->
     exists d, In d t /\ DefaultView.viewId d = v /\
               DefaultView.userId d = None) /\
    IsDefaultResult.affectedCount res = pointersTo v t) /\
  (let t3 := [DefaultView.mk "dv1" "P" (Some "U1") "traces" "A";
              DefaultView.mk "dv2" "P" (Some "U2") "traces" "A";
              DefaultView.mk "dv3" "P" (Some "U3") "traces" "A"] in
   keyUnique t3 /\
   settled (isViewDefault "A" t3) =
   Fulfilled (IsDefaultResult.mk true false 3)).
Proof.
  split.
  - eexists. split; [reflexivity|]. cbn [IsDefaultResult.isUserDefault
      IsDefaultResult.isProjectDefault IsDefaultResult.affectedCount].
    split; [|split].
    + rewrite existsb_exists. split.
      * intros [d [Hd Hu]]. apply filter_In in Hd as [Hd Hv].
        apply String.eqb_eq in Hv. exists d. repeat split; auto.
        destruct (DefaultView.userId d); [discriminate | discriminate].
      * intros [d [Hd [Hv Hu]]]. exists d. split.
        -- apply filter_In. split; auto. now apply String.eqb_eq.
        -- destruct (DefaultView.userId d); [reflexivity | congruence].
    + rewrite existsb_exists. split.
      * intros [d [Hd Hu]]. apply filter_In in Hd as [Hd Hv].
        apply String.eqb_eq in Hv. exists d. repeat split; auto.
        destruct (DefaultView.userId d); [discriminate | reflexivity].
      * intros [d [Hd [Hv Hu]]]. exists d. split.
        -- apply filter_In. split; auto. now apply String.eqb_eq.
        -- now rewrite Hu.
    + apply pointersTo_length.
  - split; [|reflexivity].
    unfold keyUnique. cbn [map].
    repeat (constructor; [cbn [In]; intros H;
                          repeat (destruct H as [H|H]; try discriminate H);
                          exact H|]).
    constructor.
Qed.

(** C6.  [cleanupOrphanedDefaults V] is always fulfilled, also when no row
    points at V, and deletes exactly the rows whose viewId is V, whatever
    their project, user or scope: the other rows are left as they were and
    in their order.  [isViewDefault V] called on the table it leaves is
    fulfilled with isUserDefault false, isProjectDefault false and
    affectedCount 0. *)
Theorem cleanupOrphanedDefaults_then_isViewDefault (t : Table) (v : string) :
  let r := cleanupOrphanedDefaults v t in
  settled r = Fulfilled tt /\
  tableAfter r = filter (fun d => negb (DefaultView.viewId d =? v)) t /\
  (forall d, In d (tableAfter r) <-> In d t /\ DefaultView.viewId d <> v) /\
  (pointersTo v t = 0 -> tableAfter r = t) /\
  pointersTo v (tableAfter r) = 0 /\
  isViewDefault v (tableAfter r) =
    (Fulfilled (IsDefaultResult.mk false false 0), tableAfter r).
Proof.
  intros r. subst r. rewrite cleanupOrphanedDefaults_eq.
  unfold settled, tableAfter. cbn [fst snd].
  do 2 (split; [reflexivity|]).
  split.
  { intros d. rewrite filter_In, negb_true_iff, String.eqb_neq. tauto. }
  split.
  { intros H0. apply filter_all. intros d Hd. apply negb_true_iff.
    destruct (DefaultView.viewId d =? v) eqn:E; auto. exfalso.
    rewrite <- pointersTo_length in H0.
    assert (Hin : In d (filter (fun d0 => DefaultView.viewId d0 =? v) t))
      by (apply filter_In; auto).
    destruct (filter (fun d0 => DefaultView.viewId d0 =? v) t);
      [destruct Hin | discriminate]. }
  split.
  { rewrite <- pointersTo_length.
    now rewrite (filter_none (fun d => DefaultView.viewId d =? v) t). }
  unfold isViewDefault, await, prisma.defaultView.findMany, resolve.
  now rewrite (filter_none (fun d => DefaultView.viewId d =? v) t).
Qed.

(** ** Isolation between users *)

(** The rows a caller may read decide the first row of the caller's own key
    and of the project key. *)
Lemma firstOfKey_visible p n u x (t : Table) :
  x = None \/ x = u ->
  firstOfKey (p, x, n) (filter (visibleTo u) t) = firstOfKey (p, x, n) t.
Proof.
  intros Hx. unfold firstOfKey. rewrite find_filter.
  apply find_ext_in. intros d _.
  destruct (keyEqb (DefaultView.key d) (p, x, n)) eqn:E;
    [|now rewrite andb_false_r].
  rewrite andb_true_r. apply keyEqb_eq in E.
  unfold DefaultView.key in E. inversion E as [[Ep Eu En]].
  unfold visibleTo. destruct Hx as [Hx|Hx]; subst x; rewrite Eu.
  - reflexivity.
  - destruct u; auto. apply String.eqb_refl.
Qed.

Lemma getResolvedDefault_reads_visible p n u t :
  settled (getResolvedDefault p n u t) =
  settled (getResolvedDefault p n u (filter (visibleTo u) t)).
Proof.
  rewrite !getResolvedDefault_eq. unfold settled. cbn [fst].
  rewrite (firstOfKey_visible p n u None t) by auto.
  destruct u as [uid|]; cbn [truthy]; auto.
  rewrite (firstOfKey_visible p n (Some uid) (Some uid) t) by auto.
  reflexivity.
Qed.

Lemma key_eq_inv d p x n :
  DefaultView.key d = (p, x, n) ->
  DefaultView.projectId d = p /\ DefaultView.userId d = x /\
  DefaultView.viewName d = n.
Proof. unfold DefaultView.key. intros E. inversion E. auto. Qed.

Lemma getResolvedDefault_returns_visible p n u t r :
  settled (getResolvedDefault p n u t) = Fulfilled (Some r) ->
  exists d,
    In d t /\ DefaultView.projectId d = p /\ DefaultView.viewName d = n /\
    DefaultView.viewId d = ResolvedDefault.viewId r /\
    DefaultView.userId d =
      match ResolvedDefault.scope r with
      | ScopeUser => u
      | ScopeProject => None
      end /\
    (ResolvedDefault.scope r = ScopeUser -> u <> None).
Proof.
  rewrite getResolvedDefault_eq. unfold settled. cbn [fst].
  destruct u as [uid|]; cbn [truthy].
  - destruct (negb (uid =? "")).
    + destruct (firstOfKey (p, Some uid, n) t) as [d|] eqn:Hu.
      * intros E. inversion E; subst r. cbn.
        apply firstOfKey_some in Hu as [Hin Hk].
        apply key_eq_inv in Hk as [Kp [Ku Kn]].
        exists d. repeat split; auto. discriminate.
      * destruct (firstOfKey (p, None, n) t) as [d|] eqn:Hp;
          [|discriminate].
        intros E. inversion E; subst r. cbn.
        apply firstOfKey_some in Hp as [Hin Hk].
        apply key_eq_inv in Hk as [Kp [Ku Kn]].
        exists d. repeat split; auto. discriminate.
    + destruct (firstOfKey (p, None, n) t) as [d|] eqn:Hp; [|discriminate].
      intros E. inversion E; subst r. cbn.
      apply firstOfKey_some in Hp as [Hin Hk].
        apply key_eq_inv in Hk as [Kp [Ku Kn]].
      exists d. repeat split; auto. discriminate.
  - destruct (firstOfKey (p, None, n) t) as [d|] eqn:Hp; [|discriminate].
    intros E. inversion E; subst r. cbn.
    apply firstOfKey_some in Hp as [Hin Hk].
        apply key_eq_inv in Hk as [Kp [Ku Kn]].
    exists d. repeat split; auto. discriminate.
Qed.

(** C9.  User isolation.  Two tables that differ only in rows whose userId
    is non-null and different from the userId the caller supplied, that is,
    tables with the same rows visible to the caller in the same order, give
    the same result of [getResolvedDefault].  A result always comes from a
    row of the queried (projectId, viewName) whose userId is the caller's own
    for scope "user" and null for scope "project", so another user's
    personal pointer is never returned; and without a userId only a result
    of scope "project" or absent can come back. *)
Theorem getResolvedDefault_user_isolation (t1 t2 : Table) (p n : string)
    (u : option string) :
  filter (visibleTo u) t1 = filter (visibleTo u) t2 ->
  settled (getResolvedDefault p n u t1) =
  settled (getResolvedDefault p n u t2) /\
  (forall r,
     settled (getResolvedDefault p n u t1) = Fulfilled (Some r) ->
     exists d,
       In d t1 /\ DefaultView.projectId d = p /\
       DefaultView.viewName d = n /\
       DefaultView.viewId d = ResolvedDefault.viewId r /\
       DefaultView.userId d =
         match ResolvedDefault.scope r with
         | ScopeUser => u
         | ScopeProject => None
         end /\
       (ResolvedDefault.scope r = ScopeUser -> u <> None)) /\
  (u = None ->
   forall r,
     settled (getResolvedDefault p n u t1) = Fulfilled (Some r) ->
     ResolvedDefault.scope r = ScopeProject).
Proof.
  intros Hsame. split; [|split].
  - rewrite (getResolvedDefault_reads_visible p n u t1).
    rewrite (getResolvedDefault_reads_visible p n u t2).
    now rewrite Hsame.
  - intros r. apply getResolvedDefault_returns_visible.
  - intros Hu r E.
    apply getResolvedDefault_returns_visible in E as [d [_ [_ [_ [_ [_ H]]]]]].
    destruct (ResolvedDefault.scope r); auto. exfalso. now apply H.
Qed.

(** An instance of C9: user U2 asks, with and without a personal default of
    user U1 in the table; both times the project default B comes back. *)
Lemma getResolvedDefault_user_isolation_witness :
  let t1 := [DefaultView.mk "dv1" "P" (Some "U1") "traces" "A";
             DefaultView.mk "dv2" "P" None "traces" "B"] in
  let t2 := [DefaultView.mk "dv2" "P" None "traces" "B"] in
  let u := Some "U2" in
  settled (getResolvedDefault "P" "traces" u t1) =
  settled (getResolvedDefault "P" "traces" u t2) /\
  (forall r,
     settled (getResolvedDefault "P" "traces" u t1) = Fulfilled (Some r) ->
     exists d,
       In d t1 /\ DefaultView.projectId d = "P" /\
       DefaultView.viewName d = "traces" /\
       DefaultView.viewId d = ResolvedDefault.viewId r /\
       DefaultView.userId d =
         match ResolvedDefault.scope r with
         | ScopeUser => u
         | ScopeProject => None
         end /\
       (ResolvedDefault.scope r = ScopeUser -> u <> None)) /\
  (u = None ->
   forall r,
     settled (getResolvedDefault "P" "traces" u t1) = Fulfilled (Some r) ->
     ResolvedDefault.scope r = ScopeProject).
Proof.
  apply (getResolvedDefault_user_isolation
           [DefaultView.mk "dv1" "P" (Some "U1") "traces" "A";
            DefaultView.mk "dv2" "P" None "traces" "B"]
           [DefaultView.mk "dv2" "P" None "traces" "B"]
           "P" "traces" (Some "U2")).
  reflexivity.
Defined.

(** ** The scenarios of the specification *)

(** U1 sets a personal default A; U2, who has none, gets nothing. *)
Example scenario_isolation :
  let t := performAll
             [SetAsDefault exampleParents "dv1" "P" "A" "traces"
                ScopeUser (Some "U1")] [] in
  settled (getResolvedDefault "P" "traces" (Some "U2") t) = Fulfilled None /\
  settled (getResolvedDefault "P" "traces" (Some "U1") t) =
    Fulfilled (Some (ResolvedDefault.mk "A" ScopeUser)).
Proof. split; reflexivity. Qed.

(** The project default B is set next to U1's personal default A. *)
Example scenario_priority :
  let t := performAll
             [SetAsDefault exampleParents "dv1" "P" "A" "traces"
                ScopeUser (Some "U1");
              SetAsDefault exampleParents "dv2" "P" "B" "traces"
                ScopeProject None] [] in
  settled (getResolvedDefault "P" "traces" (Some "U1") t) =
    Fulfilled (Some (ResolvedDefault.mk "A" ScopeUser)) /\
  settled (getResolvedDefault "P" "traces" (Some "U2") t) =
    Fulfilled (Some (ResolvedDefault.mk "B" ScopeProject)) /\
  settled (getResolvedDefault "P" "traces" None t) =
    Fulfilled (Some (ResolvedDefault.mk "B" ScopeProject)) /\
  settled (isViewDefault "B" t) =
    Fulfilled (IsDefaultResult.mk false true 1) /\
  settled (isViewDefault "A" t) =
    Fulfilled (IsDefaultResult.mk true false 1).
Proof. repeat split; reflexivity. Qed.

(** A pointer for a project or a user that does not exist is refused by
    the foreign keys and nothing is stored. *)
Example scenario_foreign_keys :
  setAsDefault exampleParents "dv1" "Z" "A" "traces" ScopeProject None [] =
    (Rejected (P2003 "default_views_project_id_fkey"), []) /\
  setAsDefault exampleParents "dv1" "P" "A" "traces" ScopeUser (Some "U9") []
    = (Rejected (P2003 "default_views_user_id_fkey"), []).
Proof. split; reflexivity. Qed.

(** Setting a default again overwrites the row in place. *)
Example scenario_overwrite :
  performAll
    [SetAsDefault exampleParents "dv1" "P" "A" "traces"
       ScopeProject (Some "U1");
     SetAsDefault exampleParents "dv2" "P" "B" "traces" ScopeProject None] [] =
  [DefaultView.mk "dv1" "P" None "traces" "B"].
Proof. reflexivity. Qed.

(** * Further properties of the service *)

(** ** Reading after writing *)

Lemma firstOfKey_filter_keep k (g : DefaultView.t -> bool) (t : Table) :
  (forall d, In d t -> DefaultView.key d = k -> g d = true) ->
  firstOfKey k (filter g t) = firstOfKey k t.
Proof.
  intros H. unfold firstOfKey. rewrite find_filter.
  apply find_ext_in. intros d Hd.
  destruct (keyEqb (DefaultView.key d) k) eqn:E;
    [|now rewrite andb_false_r].
  apply keyEqb_eq in E. now rewrite (H d Hd E).
Qed.

Lemma firstOfKey_filter_drop k (g : DefaultView.t -> bool) (t : Table) :
  (forall d, In d t -> DefaultView.key d = k -> g d = false) ->
  firstOfKey k (filter g t) = None.
Proof.
  intros H. destruct (firstOfKey k (filter g t)) as [d|] eqn:E; auto.
  apply firstOfKey_some in E as [Hin Hk].
  apply filter_In in Hin as [Hin Hg].
  rewrite (H d Hin Hk) in Hg. discriminate.
Qed.

Lemma firstOfKey_rowsOffKey k k' (t : Table) :
  k' <> k -> firstOfKey k' (rowsOffKey k t) = firstOfKey k' t.
Proof.
  intros Hne. apply firstOfKey_filter_keep. intros d _ Hk.
  apply negb_true_iff, keyEqb_neq. congruence.
Qed.

Lemma firstOfKey_rowsOffKey_same k (t : Table) :
  firstOfKey k (rowsOffKey k t) = None.
Proof.
  apply firstOfKey_filter_drop. intros d _ Hk.
  apply negb_false_iff, keyEqb_eq. exact Hk.
Qed.

(** The resolution reads a table only through the first row of the caller's
    key, when the caller's userId is truthy, and the first row of the
    project key. *)
Lemma getResolvedDefault_same_firsts p n u t1 t2 :
  (truthy u = true ->
   firstOfKey (p, u, n) t1 = firstOfKey (p, u, n) t2) ->
  firstOfKey (p, None, n) t1 = firstOfKey (p, None, n) t2 ->
  settled (getResolvedDefault p n u t1) =
  settled (getResolvedDefault p n u t2).
Proof.
  intros Hu Hp. rewrite !getResolvedDefault_eq. unfold settled. cbn [fst].
  rewrite Hp. destruct u as [uid|]; cbn [truthy] in *; auto.
  destruct (negb (uid =? "")); auto. now rewrite Hu.
Qed.

Lemma getResolvedDefault_no_user_row p n u t :
  truthy u = false \/ firstOfKey (p, u, n) t = None ->
  settled (getResolvedDefault p n u t) =
  Fulfilled
    match firstOfKey (p, None, n) t with
    | Some d => Some (ResolvedDefault.mk (DefaultView.viewId d) ScopeProject)
    | None => None
    end.
Proof.
  intros H. rewrite getResolvedDefault_eq. unfold settled. cbn [fst].
  destruct u as [uid|]; cbn [truthy] in *; auto.
  destruct (negb (uid =? "")); auto.
  destruct H as [H|H]; [discriminate|]. now rewrite H.
Qed.

Lemma firstOfKey_none_iff k (t : Table) :
  firstOfKey k t = None <-> ~ hasRow t k.
Proof.
  split; [apply firstOfKey_none|].
  intros H. destruct (firstOfKey k t) as [d|] eqn:E; auto.
  apply firstOfKey_some in E. exfalso. apply H. now exists d.
Qed.

(** A fulfilled [setAsDefault] leaves the view in the first row of its
    key, on any table. *)
Lemma setAsDefault_first_row db i p v n s u t :
  passesValidation s u = true ->
  settled (setAsDefault db i p v n s u t) = Fulfilled tt ->
  exists d,
    firstOfKey (p, effectiveUser s u, n)
      (tableAfter (setAsDefault db i p v n s u t)) = Some d /\
    DefaultView.viewId d = v.
Proof.
  intros Hv. unfold settled, tableAfter.
  destruct (firstOfKey (p, effectiveUser s u, n) t) as [e|] eqn:He.
  - rewrite (setAsDefault_existing db i p v n s u t e Hv He). cbn [fst snd].
    intros _. exists (DefaultView.withViewId v e). split; auto.
    rewrite firstOfKey_updateRow, He. cbn [option_map].
    now rewrite updateRow_self.
  - rewrite (setAsDefault_missing db i p v n s u t Hv He).
    destruct (existsb (fun d => DefaultView.id d =? i) t); cbn [fst snd];
      [discriminate|].
    destruct (negb (hasProject db p)); [discriminate|].
    destruct (negb (hasUser db (effectiveUser s u))); [discriminate|].
    cbn [fst snd].
    intros _. exists (DefaultView.mk i p (effectiveUser s u) n v).
    split; auto. unfold firstOfKey in *. rewrite find_app, He.
    cbn [find]. unfold DefaultView.key at 1.
    cbn [DefaultView.projectId DefaultView.userId DefaultView.viewName].
    now rewrite keyEqb_refl.
Qed.

(** The keys present in the table after [setAsDefault] are the ones present
    before, and possibly the key of the call. *)
Lemma setAsDefault_other_keys_present db i p v n s u t k' :
  k' <> (p, effectiveUser s u, n) ->
  (hasRow (tableAfter (setAsDefault db i p v n s u t)) k' <-> hasRow t k').
Proof.
  intros Hne. unfold tableAfter.
  destruct (passesValidation s u) eqn:Hv.
  2:{ unfold setAsDefault. unfold passesValidation in Hv.
      apply negb_false_iff in Hv. rewrite Hv. reflexivity. }
  assert (Hmap : forall t' : Table,
             hasRow t' k' <-> In k' (map DefaultView.key t')).
  { intros t'. unfold hasRow. rewrite in_map_iff.
    split; intros [d H]; exists d; tauto. }
  rewrite !Hmap.
  destruct (firstOfKey (p, effectiveUser s u, n) t) as [e|] eqn:He.
  - rewrite (setAsDefault_existing db i p v n s u t e Hv He). cbn [snd].
    now rewrite map_key_updateRow.
  - rewrite (setAsDefault_missing db i p v n s u t Hv He).
    destruct (existsb (fun d => DefaultView.id d =? i) t); cbn [snd];
      [reflexivity|].
    destruct (negb (hasProject db p)); [reflexivity|].
    destruct (negb (hasUser db (effectiveUser s u))); [reflexivity|].
    cbn [snd].
    rewrite map_app, in_app_iff. cbn [map In]. unfold DefaultView.key at 2.
    cbn [DefaultView.projectId DefaultView.userId DefaultView.viewName].
    intuition congruence.
Qed.

(** X1.  A rejected [setAsDefault] stores nothing: whenever the promise is
    rejected the table is exactly as it was.  The validation error arises
    exactly when the scope is "user" and the userId is falsy.  And a valid
    call for a key that has no row, whose project or user does not exist,
    is rejected: no pointer is stored for a missing project or user. *)
Theorem setAsDefault_rejections (db : Parents) (t : Table)
    (i p v n : string) (s : DefaultViewScope) (u : option string) :
  let r := setAsDefault db i p v n s u t in
  (settled r =
     Rejected (JsError "userId is required for user-level defaults") <->
   passesValidation s u = false) /\
  (forall e, settled r = Rejected e -> tableAfter r = t) /\
  (passesValidation s u = true ->
   ~ hasRow t (p, scopedUser s u, n) ->
   ~ parentsPresent db p (scopedUser s u) ->
   exists e, r = (Rejected e, t)).
Proof.
  intros r. subst r. rewrite <- effectiveUser_scopedUser.
  unfold settled, tableAfter.
  destruct (passesValidation s u) eqn:Hv.
  - destruct (firstOfKey (p, effectiveUser s u, n) t) as [e|] eqn:He.
    + rewrite (setAsDefault_existing db i p v n s u t e Hv He).
      cbn [fst snd]. split; [|split].
      * split; discriminate.
      * discriminate.
      * intros _ Hno. exfalso. apply Hno.
        apply firstOfKey_some in He. now exists e.
    + rewrite (setAsDefault_missing db i p v n s u t Hv He).
      destruct (existsb (fun d => DefaultView.id d =? i) t); cbn [fst snd].
      { split; [split; discriminate|]. split; [reflexivity|].
        intros _ _ _. eexists. reflexivity. }
      destruct (hasProject db p) eqn:Hp; cbn [negb fst snd].
      2:{ split; [split; discriminate|]. split; [reflexivity|].
          intros _ _ _. eexists. reflexivity. }
      destruct (hasUser db (effectiveUser s u)) eqn:Hu; cbn [negb fst snd].
      2:{ split; [split; discriminate|]. split; [reflexivity|].
          intros _ _ _. eexists. reflexivity. }
      split; [split; discriminate|]. split; [discriminate|].
      intros _ _ Hpar. exfalso. apply Hpar. split.
      * now apply hasProject_In.
      * now apply hasUser_In.
  - assert (E : setAsDefault db i p v n s u t =
                (Rejected
                   (JsError "userId is required for user-level defaults"),
                 t)).
    { unfold setAsDefault. unfold passesValidation in Hv.
      apply negb_false_iff in Hv. now rewrite Hv. }
    rewrite E. cbn [fst snd]. split; [|split].
    + split; reflexivity.
    + reflexivity.
    + discriminate.
Qed.

(** X2.  A validated [setAsDefault] is fulfilled and can be read back at
    once when its key, (projectId, userId, viewName) for scope "user" and
    (projectId, null, viewName) for scope "project", has a row already, or
    when the generated id is unused and the project and the user of the key
    exist: after a call of scope "user" the same user resolves to the view
    with scope "user"; after a call of scope "project" every caller without
    a truthy userId, or without a personal row for the table, resolves to
    the view with scope "project". *)
Theorem setAsDefault_then_getResolvedDefault (db : Parents) (t : Table)
    (i p v n : string) (s : DefaultViewScope) (u : option string) :
  passesValidation s u = true ->
  hasRow t (p, scopedUser s u, n) \/
  (~ In i (map DefaultView.id t) /\ parentsPresent db p (scopedUser s u)) ->
  let t' := tableAfter (setAsDefault db i p v n s u t) in
  settled (setAsDefault db i p v n s u t) = Fulfilled tt /\
  (s = ScopeUser ->
   settled (getResolvedDefault p n u t') =
   Fulfilled (Some (ResolvedDefault.mk v ScopeUser))) /\
  (s = ScopeProject ->
   forall u', truthy u' = false \/ ~ hasRow t (p, u', n) ->
     settled (getResolvedDefault p n u' t') =
     Fulfilled (Some (ResolvedDefault.mk v ScopeProject))).
Proof.
  intros Hv Hok t'. rewrite <- effectiveUser_scopedUser in Hok.
  assert (Hf : settled (setAsDefault db i p v n s u t) = Fulfilled tt).
  { destruct (setAsDefault_UpsertsAt db i p v n s u t Hv) as [H _].
    apply H. exact Hok. }
  destruct (setAsDefault_first_row db i p v n s u t Hv Hf) as [d [Hd Hvd]].
  fold t' in Hd. split; [exact Hf|]. split.
  - intros Hs. subst s. destruct u as [uid|]; [|discriminate].
    unfold passesValidation in Hv. cbn in Hv.
    rewrite getResolvedDefault_eq. unfold settled. cbn [fst truthy].
    rewrite negb_involutive in Hv. rewrite Hv.
    unfold effectiveUser in Hd. cbn in Hd. rewrite Hd. now rewrite Hvd.
  - intros Hs u' Hu'. subst s. unfold effectiveUser in Hd. cbn in Hd.
    rewrite getResolvedDefault_no_user_row.
    + rewrite Hd. now rewrite Hvd.
    + destruct Hu' as [Hu'|Hu']; [now left|].
      destruct u' as [uid'|]; [|now left]. right.
      apply firstOfKey_none_iff. intros Hrow. apply Hu'.
      apply (setAsDefault_other_keys_present db i p v n ScopeProject u t)
        in Hrow; auto.
      unfold effectiveUser. cbn. congruence.
Qed.

(** An instance of X2: user U1 creates a personal default next to the
    project-wide one and reads it back. *)
Lemma setAsDefault_then_getResolvedDefault_witness :
  let t := [DefaultView.mk "dv1" "P" None "traces" "A"] in
  let t' := tableAfter
              (setAsDefault exampleParents "dv2" "P" "B" "traces" ScopeUser
                 (Some "U1") t) in
  settled (setAsDefault exampleParents "dv2" "P" "B" "traces" ScopeUser
             (Some "U1") t) = Fulfilled tt /\
  (ScopeUser = ScopeUser ->
   settled (getResolvedDefault "P" "traces" (Some "U1") t') =
   Fulfilled (Some (ResolvedDefault.mk "B" ScopeUser))) /\
  (ScopeUser = ScopeProject ->
   forall u', truthy u' = false \/ ~ hasRow t ("P", u', "traces") ->
     settled (getResolvedDefault "P" "traces" u' t') =
     Fulfilled (Some (ResolvedDefault.mk "B" ScopeProject))).
Proof.
  apply (setAsDefault_then_getResolvedDefault exampleParents
           [DefaultView.mk "dv1" "P" None "traces" "A"]
           "dv2" "P" "B" "traces" ScopeUser (Some "U1")).
  - reflexivity.
  - right. split.
    + simpl. intros [H|[]]. discriminate.
    + split; simpl; auto.
Defined.

(** ** What a write leaves alone *)

Lemma firstOfKey_same_rowsOffKey k k' (t t' : Table) :
  k' <> k -> rowsOffKey k t' = rowsOffKey k t ->
  firstOfKey k' t' = firstOfKey k' t.
Proof.
  intros Hne E.
  rewrite <- (firstOfKey_rowsOffKey k k' t' Hne).
  rewrite <- (firstOfKey_rowsOffKey k k' t Hne). now rewrite E.
Qed.

(** Two tables with the same rows off a key resolve alike for every caller
    and table the key does not concern. *)
Lemma getResolvedDefault_off_key p n e p' n' u' (t t' : Table) :
  rowsOffKey (p, e, n) t' = rowsOffKey (p, e, n) t ->
  (p', n') <> (p, n) \/ (e <> None /\ e <> u') ->
  settled (getResolvedDefault p' n' u' t') =
  settled (getResolvedDefault p' n' u' t).
Proof.
  intros E H. apply getResolvedDefault_same_firsts.
  - intros _. apply (firstOfKey_same_rowsOffKey (p, e, n)); auto.
    intros Hk. inversion Hk; subst. destruct H as [H|[_ H]]; congruence.
  - apply (firstOfKey_same_rowsOffKey (p, e, n)); auto.
    intros Hk. inversion Hk; subst. destruct H as [H|[H _]]; congruence.
Qed.

Lemma setAsDefault_rejected_table db i p v n s u t :
  passesValidation s u = false ->
  tableAfter (setAsDefault db i p v n s u t) = t.
Proof.
  intros Hv. unfold setAsDefault. unfold passesValidation in Hv.
  apply negb_false_iff in Hv. now rewrite Hv.
Qed.

(** X3.  On a table whose primary key holds, [setAsDefault] changes no
    resolution it is not about: the result of [getResolvedDefault] for
    another (projectId, viewName) is what it was, and after a call of scope
    "user" so is the result for every caller with another userId or with
    none, for the same table too. *)
Theorem setAsDefault_frame (db : Parents) (t : Table)
    (i p v n : string)
    (s : DefaultViewScope) (u : option string) (p' n' : string)
    (u' : option string) :
  pkUnique t ->
  (p', n') <> (p, n) \/
  (effectiveUser s u <> None /\ effectiveUser s u <> u') ->
  settled (getResolvedDefault p' n' u'
             (tableAfter (setAsDefault db i p v n s u t))) =
  settled (getResolvedDefault p' n' u' t).
Proof.
  intros Hpk H. destruct (passesValidation s u) eqn:Hv.
  - apply (getResolvedDefault_off_key p n (effectiveUser s u)); auto.
    destruct (setAsDefault_UpsertsAt db i p v n s u t Hv) as [_ [_ Hoff]].
    auto.
  - now rewrite setAsDefault_rejected_table.
Qed.

Lemma setAsDefault_frame_witness :
  let t := [DefaultView.mk "dv1" "P" (Some "U1") "traces" "A";
            DefaultView.mk "dv2" "P" None "traces" "B"] in
  settled (getResolvedDefault "P" "traces" (Some "U2")
             (tableAfter
                (setAsDefault exampleParents "dv3" "P" "C" "traces"
                   ScopeUser (Some "U1") t))) =
  settled (getResolvedDefault "P" "traces" (Some "U2") t).
Proof.
  apply (setAsDefault_frame exampleParents
           [DefaultView.mk "dv1" "P" (Some "U1") "traces" "A";
            DefaultView.mk "dv2" "P" None "traces" "B"]
           "dv3" "P" "C" "traces" ScopeUser (Some "U1")
           "P" "traces" (Some "U2")).
  - unfold pkUnique. simpl.
    constructor; [simpl; intros [H|[]]; discriminate|].
    constructor; [simpl; tauto | constructor].
  - right. unfold effectiveUser. simpl. split; discriminate.
Defined.

(** X4.  After a validated [clearDefault] of scope "user" the user resolves
    to what a caller without userId resolves to on the table before; after
    one of scope "project" every caller without a truthy userId, or without
    a personal row for the table, resolves to absent; and whatever the
    scope, a resolution for another (projectId, viewName), or after a
    user-scoped call for a caller with another userId or none, is what it
    was. *)
Theorem clearDefault_then_getResolvedDefault (t : Table) (p n : string)
    (s : DefaultViewScope) (u : option string) :
  passesValidation s u = true ->
  let t' := tableAfter (clearDefault p n s u t) in
  (s = ScopeUser ->
   settled (getResolvedDefault p n u t') =
   settled (getResolvedDefault p n None t)) /\
  (s = ScopeProject ->
   forall u', truthy u' = false \/ ~ hasRow t (p, u', n) ->
     settled (getResolvedDefault p n u' t') = Fulfilled None) /\
  (forall p' n' u',
     (p', n') <> (p, n) \/
     (effectiveUser s u <> None /\ effectiveUser s u <> u') ->
     settled (getResolvedDefault p' n' u' t') =
     settled (getResolvedDefault p' n' u' t)).
Proof.
  intros Hv t'. subst t'. rewrite (clearDefault_eq p n s u t Hv).
  unfold tableAfter. cbn [snd]. split; [|split].
  - intros Hs. subst s. destruct u as [uid|]; [|discriminate].
    change (effectiveUser ScopeUser (Some uid)) with (Some uid).
    rewrite (getResolvedDefault_no_user_row p n (Some uid)).
    + rewrite (getResolvedDefault_no_user_row p n None t) by now left.
      rewrite firstOfKey_rowsOffKey by discriminate. reflexivity.
    + right. apply firstOfKey_rowsOffKey_same.
  - intros Hs u' Hu'. subst s.
    change (effectiveUser ScopeProject u) with (@None string).
    rewrite getResolvedDefault_no_user_row.
    + now rewrite firstOfKey_rowsOffKey_same.
    + destruct Hu' as [Hu'|Hu']; [now left|].
      destruct u' as [uid'|]; [|now left]. right.
      rewrite firstOfKey_rowsOffKey by discriminate.
      now apply firstOfKey_none_iff.
  - intros p' n' u' H.
    apply (getResolvedDefault_off_key p n (effectiveUser s u)); auto.
    unfold rowsOffKey at 1.
    apply (filter_filter_implied
             (fun d => negb (keyEqb (DefaultView.key d)
                               (p, effectiveUser s u, n)))
             (fun d => negb (keyEqb (DefaultView.key d)
                               (p, effectiveUser s u, n)))).
    auto.
Qed.

Lemma clearDefault_then_getResolvedDefault_witness :
  let t := [DefaultView.mk "dv1" "P" (Some "U1") "traces" "A";
            DefaultView.mk "dv2" "P" None "traces" "B"] in
  let t' := tableAfter (clearDefault "P" "traces" ScopeUser (Some "U1") t) in
  (ScopeUser = ScopeUser ->
   settled (getResolvedDefault "P" "traces" (Some "U1") t') =
   settled (getResolvedDefault "P" "traces" None t)) /\
  (ScopeUser = ScopeProject ->
   forall u', truthy u' = false \/ ~ hasRow t ("P", u', "traces") ->
     settled (getResolvedDefault "P" "traces" u' t') = Fulfilled None) /\
  (forall p' n' u',
     (p', n') <> ("P", "traces") \/
     (effectiveUser ScopeUser (Some "U1") <> None /\
      effectiveUser ScopeUser (Some "U1") <> u') ->
     settled (getResolvedDefault p' n' u' t') =
     settled (getResolvedDefault p' n' u' t)).
Proof.
  apply (clearDefault_then_getResolvedDefault
           [DefaultView.mk "dv1" "P" (Some "U1") "traces" "A";
            DefaultView.mk "dv2" "P" None "traces" "B"]
           "P" "traces" ScopeUser (Some "U1")).
  reflexivity.
Defined.

(** X5.  Creating a pointer and clearing it is a round trip: when the key,
    (projectId, userId, viewName) for scope "user" and (projectId, null,
    viewName) for scope "project", has no row, the generated id is unused,
    the project and the user of the key exist and the input is valid,
    [setAsDefault] followed by [clearDefault] with the same (projectId,
    viewName, scope, userId) is fulfilled twice and leaves the table exactly
    as it was. *)
Theorem clearDefault_undoes_create (db : Parents) (t : Table)
    (i p v n : string) (s : DefaultViewScope) (u : option string) :
  passesValidation s u = true ->
  ~ hasRow t (p, scopedUser s u, n) ->
  ~ In i (map DefaultView.id t) ->
  parentsPresent db p (scopedUser s u) ->
  let r1 := setAsDefault db i p v n s u t in
  let r2 := clearDefault p n s u (tableAfter r1) in
  settled r1 = Fulfilled tt /\ settled r2 = Fulfilled tt /\
  tableAfter r2 = t.
Proof.
  intros Hv Hno Hfresh Hpar r1 r2. subst r1 r2.
  rewrite <- effectiveUser_scopedUser in Hno, Hpar.
  apply firstOfKey_none_iff in Hno.
  assert (Hins : insertable db i (p, effectiveUser s u, n) t)
    by (split; assumption).
  rewrite (setAsDefault_inserts db i p v n s u t Hv Hno Hins).
  unfold settled, tableAfter. cbn [fst snd].
  rewrite (clearDefault_eq p n s u _ Hv). cbn [fst snd].
  do 2 (split; [reflexivity|]).
  unfold rowsOffKey. rewrite filter_app. cbn [filter].
  unfold DefaultView.key at 2.
  cbn [DefaultView.projectId DefaultView.userId DefaultView.viewName].
  rewrite keyEqb_refl. cbn [negb]. rewrite app_nil_r.
  apply filter_all. intros d Hd. apply negb_true_iff, keyEqb_neq.
  intros Hk. apply (firstOfKey_none _ _ Hno). now exists d.
Qed.

Lemma clearDefault_undoes_create_witness :
  let t := [DefaultView.mk "dv1" "P" None "traces" "B"] in
  let r1 := setAsDefault exampleParents "dv2" "P" "A" "traces" ScopeUser
              (Some "U1") t in
  let r2 := clearDefault "P" "traces" ScopeUser (Some "U1") (tableAfter r1) in
  settled r1 = Fulfilled tt /\ settled r2 = Fulfilled tt /\
  tableAfter r2 = t.
Proof.
  apply (clearDefault_undoes_create exampleParents
           [DefaultView.mk "dv1" "P" None "traces" "B"]
           "dv2" "P" "A" "traces" ScopeUser (Some "U1")).
  - reflexivity.
  - intros [d [[H|[]] Hk]]. subst d. discriminate.
  - simpl. intros [H|[]]. discriminate.
  - split; simpl; auto.
Defined.

(** ** The primary key *)

Lemma map_id_updateRow i v (t : Table) :
  map DefaultView.id (map (updateRow i v) t) = map DefaultView.id t.
Proof. rewrite map_map. apply map_ext. intros d. apply updateRow_id. Qed.

Lemma setAsDefault_pkUnique db i p v n s u t :
  pkUnique t -> pkUnique (tableAfter (setAsDefault db i p v n s u t)).
Proof.
  intros Hpk. unfold setAsDefault.
  destruct (isUserScope s && negb (truthy u)); [exact Hpk|].
  unfold await, prisma.defaultView.findFirst.
  destruct (find (whereKey p n (userIdToUse s u)) t) as [e|].
  - unfold prisma.defaultView.update.
    destruct (existsb (fun d => DefaultView.id d =? DefaultView.id e) t);
      [|exact Hpk].
    unfold tableAfter, pkUnique. cbn [snd]. now rewrite map_id_updateRow.
  - unfold prisma.defaultView.create.
    destruct (existsb (fun d => DefaultView.id d =? i) t) eqn:Ex;
      [exact Hpk|].
    match goal with
    | |- context [existsb ?f t] => destruct (existsb f t)
    end; [exact Hpk|].
    destruct (negb (hasProject db p)); [exact Hpk|].
    destruct (negb (hasUser db (toColumn (userIdToUse s u)))); [exact Hpk|].
    unfold tableAfter, pkUnique. cbn [snd]. rewrite map_app. cbn [map].
    apply NoDup_snoc; [exact Hpk|]. cbn [DefaultView.id].
    intros Hin. apply existsb_id_In in Hin. congruence.
Qed.

Lemma perform_pkUnique c t : pkUnique t -> pkUnique (perform c t).
Proof.
  intros Hpk. destruct c; cbn [perform].
  - now rewrite getResolvedDefault_eq.
  - now apply setAsDefault_pkUnique.
  - unfold clearDefault.
    destruct (isUserScope scope && negb (truthy userId)); [exact Hpk|].
    unfold tableAfter, await, prisma.defaultView.deleteMany, resolve, pkUnique.
    cbn [snd]. now apply NoDup_map_filter.
  - exact Hpk.
  - unfold cleanupOrphanedDefaults, tableAfter, await,
      prisma.defaultView.deleteMany, resolve, pkUnique.
    cbn [snd]. now apply NoDup_map_filter.
Qed.

(** X6.  The primary key is kept by every sequence of calls of the five
    methods: from a table in which no two rows share an id, every table
    reached has that property, whatever ids are generated for the rows
    [setAsDefault] creates (a taken id is rejected, not stored twice). *)
Theorem pkUnique_invariant (cs : list Call) (t : Table) :
  pkUnique t ->
  pkUnique (performAll cs t) /\
  forall d1 d2,
    In d1 (performAll cs t) -> In d2 (performAll cs t) ->
    DefaultView.id d1 = DefaultView.id d2 -> d1 = d2.
Proof.
  intros Hpk.
  assert (H : pkUnique (performAll cs t)).
  { revert t Hpk. unfold performAll.
    induction cs as [|c cs IH]; intros t Hpk; cbn [fold_left]; auto.
    apply IH. now apply perform_pkUnique. }
  split; [exact H|].
  intros d1 d2. now apply NoDup_map_same.
Qed.

Lemma pkUnique_invariant_witness :
  let cs := [SetAsDefault exampleParents "dv1" "P" "A" "traces"
               ScopeUser (Some "U1");
             SetAsDefault exampleParents "dv1" "P" "B" "traces"
               ScopeProject None;
             SetAsDefault exampleParents "dv2" "P" "B" "traces"
               ScopeProject None;
             ClearDefault "P" "traces" ScopeUser (Some "U1")] in
  pkUnique (performAll cs []) /\
  forall d1 d2,
    In d1 (performAll cs []) -> In d2 (performAll cs []) ->
    DefaultView.id d1 = DefaultView.id d2 -> d1 = d2.
Proof.
  intros cs. apply (pkUnique_invariant cs []). constructor.
Defined.

(** ** The order of the rows *)

Lemma Resolves_Permutation t1 t2 p n u r :
  Permutation t1 t2 -> Resolves t1 p n u r -> Resolves t2 p n u r.
Proof.
  intros HP HR.
  assert (Hrow : forall k, hasRow t2 k -> hasRow t1 k).
  { intros k [d [Hd Hk]]. exists d. split; auto.
    apply (Permutation_in d (Permutation_sym HP) Hd). }
  destruct HR as [uid d E N I K | d U I K | U A].
  - apply ResolvesUser with (uid := uid); auto.
    apply (Permutation_in d HP I).
  - apply ResolvesProject; auto.
    + intros uid E N H. apply (U uid E N). auto.
    + apply (Permutation_in d HP I).
  - apply ResolvesAbsent.
    + intros uid E N H. apply (U uid E N). auto.
    + intros H. apply A. auto.
Qed.

Lemma existsb_Permutation {A} (f : A -> bool) (l1 l2 : list A) :
  Permutation l1 l2 -> existsb f l1 = existsb f l2.
Proof.
  intros HP.
  destruct (existsb f l1) eqn:E1; destruct (existsb f l2) eqn:E2; auto.
  - apply existsb_exists in E1 as [a [Ha Hf]].
    assert (H2 : existsb f l2 = true).
    { apply existsb_exists. exists a. split; auto.
      apply (Permutation_in a HP Ha). }
    congruence.
  - apply existsb_exists in E2 as [a [Ha Hf]].
    assert (H1 : existsb f l1 = true).
    { apply existsb_exists. exists a. split; auto.
      apply (Permutation_in a (Permutation_sym HP) Ha). }
    congruence.
Qed.

Lemma filter_Permutation {A} (f : A -> bool) (l1 l2 : list A) :
  Permutation l1 l2 -> Permutation (filter f l1) (filter f l2).
Proof.
  induction 1 as [| a l l' _ IH | a b l | l l' l'' _ IH1 _ IH2];
    cbn [filter].
  - constructor.
  - destruct (f a); auto.
  - destruct (f a), (f b); auto. constructor.
  - now transitivity (filter f l').
Qed.

(** X7.  The order in which the database hands the rows back does not
    matter: [isViewDefault] gives the same result on any two tables that
    are permutations of one another, and so does [getResolvedDefault] when
    the table satisfies the unique index. *)
Theorem results_independent_of_row_order (t1 t2 : Table) :
  Permutation t1 t2 ->
  (forall v, settled (isViewDefault v t1) = settled (isViewDefault v t2)) /\
  (keyUnique t1 ->
   forall p n u,
     settled (getResolvedDefault p n u t1) =
     settled (getResolvedDefault p n u t2)).
Proof.
  intros HP. split.
  - intros v. unfold isViewDefault, await, prisma.defaultView.findMany,
      resolve, settled. cbn [fst].
    pose proof (filter_Permutation
                  (fun d => DefaultView.viewId d =? v) t1 t2 HP) as HF.
    rewrite (existsb_Permutation _ _ _ HF).
    rewrite (existsb_Permutation
               (fun d => strictEq (DefaultView.userId d) JsNull) _ _ HF).
    now rewrite (Permutation_length HF).
  - intros Hu p n u.
    destruct (getResolvedDefault_Resolves t1 p n u) as [r1 [E1 R1]].
    destruct (getResolvedDefault_Resolves t2 p n u) as [r2 [E2 R2]].
    rewrite E1, E2. unfold settled. cbn [fst]. f_equal.
    apply (Resolves_functional t1 p n u); auto.
    apply (Resolves_Permutation t2 t1); auto. now apply Permutation_sym.
Qed.

Lemma results_independent_of_row_order_witness :
  let t1 := [DefaultView.mk "dv1" "P" (Some "U1") "traces" "A";
             DefaultView.mk "dv2" "P" None "traces" "B"] in
  let t2 := [DefaultView.mk "dv2" "P" None "traces" "B";
             DefaultView.mk "dv1" "P" (Some "U1") "traces" "A"] in
  (forall v, settled (isViewDefault v t1) = settled (isViewDefault v t2)) /\
  (keyUnique t1 ->
   forall p n u,
     settled (getResolvedDefault p n u t1) =
     settled (getResolvedDefault p n u t2)).
Proof.
  apply (results_independent_of_row_order
           [DefaultView.mk "dv1" "P" (Some "U1") "traces" "A";
            DefaultView.mk "dv2" "P" None "traces" "B"]
           [DefaultView.mk "dv2" "P" None "traces" "B";
            DefaultView.mk "dv1" "P" (Some "U1") "traces" "A"]).
  apply perm_swap.
Defined.

(** ** Pointers to a view, after writes *)

Lemma isViewDefault_eq v t :
  isViewDefault v t =
  (Fulfilled
     (IsDefaultResult.mk
        (existsb (fun d => negb (strictEq (DefaultView.userId d) JsNull))
           (filter (fun d => DefaultView.viewId d =? v) t))
        (existsb (fun d => strictEq (DefaultView.userId d) JsNull)
           (filter (fun d => DefaultView.viewId d =? v) t))
        (List.length (filter (fun d => DefaultView.viewId d =? v) t))), t).
Proof. reflexivity. Qed.

Lemma strictEq_null c : strictEq c JsNull = true <-> c = None.
Proof. destruct c; simpl; split; congruence. Qed.

(** X8.  The two flags and the count of [isViewDefault] agree: both flags
    are false exactly when affectedCount is 0, and affectedCount is never
    more than the number of rows of the table. *)
Theorem isViewDefault_flags_and_count (t : Table) (v : string) :
  exists r,
    isViewDefault v t = (Fulfilled r, t) /\
    (IsDefaultResult.isUserDefault r = false /\
     IsDefaultResult.isProjectDefault r = false <->
     IsDefaultResult.affectedCount r = 0) /\
    IsDefaultResult.affectedCount r <= List.length t.
Proof.
  eexists. split; [apply isViewDefault_eq|].
  cbn [IsDefaultResult.isUserDefault IsDefaultResult.isProjectDefault
       IsDefaultResult.affectedCount].
  split.
  - destruct (filter (fun d => DefaultView.viewId d =? v) t) as [|d l];
      cbn [existsb List.length].
    + tauto.
    + split; [|discriminate].
      destruct (strictEq (DefaultView.userId d) JsNull); cbn;
        intros [H1 H2]; discriminate.
  - apply filter_length_le.
Qed.

(** X9.  A view just set as default is reported by [isViewDefault]: after a
    validated [setAsDefault] whose key, (projectId, userId, viewName) for
    scope "user" and (projectId, null, viewName) for scope "project", has a
    row already, or for which the generated id is unused and the project
    and the user of the key exist, affectedCount for the view is not 0,
    isUserDefault is true for scope "user" and isProjectDefault is true for
    scope "project". *)
Theorem setAsDefault_then_isViewDefault (db : Parents) (t : Table)
    (i p v n : string) (s : DefaultViewScope) (u : option string) :
  passesValidation s u = true ->
  hasRow t (p, scopedUser s u, n) \/
  (~ In i (map DefaultView.id t) /\ parentsPresent db p (scopedUser s u)) ->
  exists r,
    settled (isViewDefault v (tableAfter (setAsDefault db i p v n s u t))) =
    Fulfilled r /\
    IsDefaultResult.affectedCount r <> 0 /\
    (s = ScopeUser -> IsDefaultResult.isUserDefault r = true) /\
    (s = ScopeProject -> IsDefaultResult.isProjectDefault r = true).
Proof.
  intros Hv Hok. rewrite <- effectiveUser_scopedUser in Hok.
  destruct (setAsDefault_UpsertsAt db i p v n s u t Hv) as [Hf [Hrow _]].
  destruct (Hrow (Hf Hok)) as [d [Hd [Hk Hvd]]].
  apply key_eq_inv in Hk as [_ [Hu _]].
  rewrite isViewDefault_eq. unfold settled. cbn [fst].
  eexists. split; [reflexivity|].
  cbn [IsDefaultResult.isUserDefault IsDefaultResult.isProjectDefault
       IsDefaultResult.affectedCount].
  assert (Hin : In d (filter (fun d0 => DefaultView.viewId d0 =? v)
                        (tableAfter (setAsDefault db i p v n s u t)))).
  { apply filter_In. split; auto. now apply String.eqb_eq. }
  split; [|split].
  - destruct (filter (fun d0 => DefaultView.viewId d0 =? v)
                (tableAfter (setAsDefault db i p v n s u t)));
      [destruct Hin | discriminate].
  - intros Hs. subst s. apply existsb_exists. exists d. split; auto.
    destruct u as [uid|]; [|discriminate Hv].
    unfold effectiveUser in Hu. cbn in Hu. now rewrite Hu.
  - intros Hs. subst s. apply existsb_exists. exists d. split; auto.
    unfold effectiveUser in Hu. cbn in Hu. now rewrite Hu.
Qed.

Lemma setAsDefault_then_isViewDefault_witness :
  exists r,
    settled (isViewDefault "A"
               (tableAfter
                  (setAsDefault exampleParents "dv1" "P" "A" "traces"
                     ScopeUser (Some "U1") []))) = Fulfilled r /\
    IsDefaultResult.affectedCount r <> 0 /\
    (ScopeUser = ScopeUser -> IsDefaultResult.isUserDefault r = true) /\
    (ScopeUser = ScopeProject -> IsDefaultResult.isProjectDefault r = true).
Proof.
  apply (setAsDefault_then_isViewDefault exampleParents
           [] "dv1" "P" "A" "traces" ScopeUser (Some "U1")).
  - reflexivity.
  - right. split; [simpl; tauto|]. split; simpl; auto.
Defined.

(** X10.  After [cleanupOrphanedDefaults V] no resolution yields V any
    more, for any project, table and caller; the answer of [isViewDefault]
    for every other view is what it was; cleaning up again changes
    nothing; and cleaning up two views gives the same table in either
    order. *)
Theorem cleanupOrphanedDefaults_no_dangling (t : Table) (v : string) :
  let t' := tableAfter (cleanupOrphanedDefaults v t) in
  (forall p n u r,
     settled (getResolvedDefault p n u t') = Fulfilled (Some r) ->
     ResolvedDefault.viewId r <> v) /\
  (forall v', v' <> v ->
     settled (isViewDefault v' t') = settled (isViewDefault v' t)) /\
  tableAfter (cleanupOrphanedDefaults v t') = t' /\
  (forall v2,
     tableAfter (cleanupOrphanedDefaults v2 t') =
     tableAfter (cleanupOrphanedDefaults v
                   (tableAfter (cleanupOrphanedDefaults v2 t)))).
Proof.
  intros t'. subst t'. rewrite cleanupOrphanedDefaults_eq.
  unfold tableAfter. cbn [snd]. split; [|split; [|split]].
  - intros p n u r E.
    apply getResolvedDefault_returns_visible in E
      as [d [Hd [_ [_ [Hv _]]]]].
    apply filter_In in Hd as [_ Hd]. rewrite <- Hv.
    now apply negb_true_iff, String.eqb_neq in Hd.
  - intros v' Hne. rewrite !isViewDefault_eq. unfold settled. cbn [fst].
    rewrite (filter_filter_implied
               (fun d => DefaultView.viewId d =? v')
               (fun d => negb (DefaultView.viewId d =? v)) t).
    + reflexivity.
    + intros d Hd. apply String.eqb_eq in Hd.
      apply negb_true_iff, String.eqb_neq. congruence.
  - rewrite cleanupOrphanedDefaults_eq. cbn [snd].
    apply filter_filter_implied. auto.
  - intros v2. rewrite !cleanupOrphanedDefaults_eq. cbn [snd].
    induction t as [|d t IH]; cbn [filter]; auto.
    destruct (DefaultView.viewId d =? v) eqn:E1;
      destruct (DefaultView.viewId d =? v2) eqn:E2;
      cbn [negb filter]; rewrite ?E1, ?E2; cbn [negb]; now rewrite IH.
Qed.

(** ** Cascading deletes *)

(** X11.  Deleting a user cascades to exactly the rows with that userId.
    The unique index and the primary key are kept; afterwards the deleted
    user resolves, for every project and table, to what a caller without
    userId resolved to before, and every other caller to what that caller
    resolved to before. *)
Theorem onDeleteUser_effect (t : Table) (uid : string) :
  let t' := onDeleteUser uid t in
  (forall d, In d t' <-> In d t /\ DefaultView.userId d <> Some uid) /\
  (keyUnique t -> keyUnique t') /\
  (pkUnique t -> pkUnique t') /\
  (forall p n,
     settled (getResolvedDefault p n (Some uid) t') =
     settled (getResolvedDefault p n None t)) /\
  (forall p n u', u' <> Some uid ->
     settled (getResolvedDefault p n u' t') =
     settled (getResolvedDefault p n u' t)).
Proof.
  intros t'. subst t'. unfold onDeleteUser.
  assert (Hkeep : forall p n x, x <> Some uid ->
            firstOfKey (p, x, n)
              (filter (fun d => negb (strictEq (DefaultView.userId d)
                                        (JsString uid))) t)
            = firstOfKey (p, x, n) t).
  { intros p n x Hx. apply firstOfKey_filter_keep. intros d _ Hk.
    apply key_eq_inv in Hk as [_ [Hu _]]. rewrite Hu.
    apply negb_true_iff. destruct x as [a|]; cbn; auto.
    apply String.eqb_neq. congruence. }
  split; [|split; [|split; [|split]]].
  - intros d. rewrite filter_In, negb_true_iff.
    destruct (DefaultView.userId d) as [a|]; cbn.
    + rewrite String.eqb_neq. intuition congruence.
    + intuition congruence.
  - unfold keyUnique. apply NoDup_map_filter.
  - unfold pkUnique. apply NoDup_map_filter.
  - intros p n.
    rewrite (getResolvedDefault_no_user_row p n (Some uid)).
    + rewrite (getResolvedDefault_no_user_row p n None t) by now left.
      rewrite Hkeep by discriminate. reflexivity.
    + right. apply firstOfKey_filter_drop. intros d _ Hk.
      apply key_eq_inv in Hk as [_ [Hu _]]. rewrite Hu. cbn.
      now rewrite String.eqb_refl.
  - intros p n u' Hne. apply getResolvedDefault_same_firsts.
    + intros _. now apply Hkeep.
    + apply Hkeep. discriminate.
Qed.

(** X12.  Deleting a project cascades to exactly the rows of that project.
    The unique index and the primary key are kept; afterwards every
    resolution for the deleted project is absent and every resolution for
    another project is what it was. *)
Theorem onDeleteProject_effect (t : Table) (p : string) :
  let t' := onDeleteProject p t in
  (forall d, In d t' <-> In d t /\ DefaultView.projectId d <> p) /\
  (keyUnique t -> keyUnique t') /\
  (pkUnique t -> pkUnique t') /\
  (forall n u, settled (getResolvedDefault p n u t') = Fulfilled None) /\
  (forall p' n u, p' <> p ->
     settled (getResolvedDefault p' n u t') =
     settled (getResolvedDefault p' n u t)).
Proof.
  intros t'. subst t'. unfold onDeleteProject.
  assert (Hdrop : forall n x,
            firstOfKey (p, x, n)
              (filter (fun d => negb (DefaultView.projectId d =? p)) t)
            = None).
  { intros n x. apply firstOfKey_filter_drop. intros d _ Hk.
    apply key_eq_inv in Hk as [Hp _]. rewrite Hp.
    now rewrite String.eqb_refl. }
  assert (Hkeep : forall p' n x, p' <> p ->
            firstOfKey (p', x, n)
              (filter (fun d => negb (DefaultView.projectId d =? p)) t)
            = firstOfKey (p', x, n) t).
  { intros p' n x Hne. apply firstOfKey_filter_keep. intros d _ Hk.
    apply key_eq_inv in Hk as [Hp _]. rewrite Hp.
    now apply negb_true_iff, String.eqb_neq. }
  split; [|split; [|split; [|split]]].
  - intros d. rewrite filter_In, negb_true_iff, String.eqb_neq. tauto.
  - unfold keyUnique. apply NoDup_map_filter.
  - unfold pkUnique. apply NoDup_map_filter.
  - intros n u. rewrite getResolvedDefault_no_user_row.
    + now rewrite Hdrop.
    + right. apply Hdrop.
  - intros p' n u Hne. apply getResolvedDefault_same_firsts.
    + intros _. now apply Hkeep.
    + now apply Hkeep.
Qed.

(** * The router over the service *)

Lemma filter_through {A} (g h : A -> bool) (l l' : list A) :
  (forall a, g a = true -> h a = true) ->
  filter h l' = filter h l -> filter g l' = filter g l.
Proof.
  intros Himp E.
  rewrite <- (filter_filter_implied g h l' Himp).
  rewrite <- (filter_filter_implied g h l Himp). now rewrite E.
Qed.

(** Rows that are not of the key of a call are kept by [setAsDefault] on a
    table whose primary key holds, and by [clearDefault] on any table. *)
Lemma setAsDefault_keeps_filter db i p v n s u t (g : DefaultView.t -> bool) :
  pkUnique t ->
  (forall d, g d = true ->
             DefaultView.key d <> (p, effectiveUser s u, n)) ->
  filter g (tableAfter (setAsDefault db i p v n s u t)) = filter g t.
Proof.
  intros Hpk Hg. destruct (passesValidation s u) eqn:Hv.
  - destruct (setAsDefault_UpsertsAt db i p v n s u t Hv) as [_ [_ Hoff]].
    apply (filter_through g
             (fun d => negb (keyEqb (DefaultView.key d)
                               (p, effectiveUser s u, n)))).
    + intros d Hd. apply negb_true_iff, keyEqb_neq. auto.
    + apply Hoff, Hpk.
  - now rewrite setAsDefault_rejected_table.
Qed.

Lemma clearDefault_keeps_filter p n s u t (g : DefaultView.t -> bool) :
  (forall d, g d = true ->
             DefaultView.key d <> (p, effectiveUser s u, n)) ->
  filter g (tableAfter (clearDefault p n s u t)) = filter g t.
Proof.
  intros Hg. destruct (passesValidation s u) eqn:Hv.
  - rewrite (clearDefault_eq p n s u t Hv). unfold tableAfter. cbn [snd].
    apply filter_filter_implied.
    intros d Hd. apply negb_true_iff, keyEqb_neq. auto.
  - unfold clearDefault. unfold passesValidation in Hv.
    apply negb_false_iff in Hv. now rewrite Hv.
Qed.

Section RouterProperties.

Variable Session : Type.
Variable sessionUserId : Session -> option string.
Variable hasProjectAccess : Session -> string -> string -> bool.
Variable getTableViewPresetsById : string -> string -> option string.
Variable deleteTableViewPresets : string -> string -> bool.

Local Notation "'routerDelete'" :=
  (TableViewPresetsRouter.delete Session hasProjectAccess
     deleteTableViewPresets).
Local Notation "'routerGetDefault'" :=
  (TableViewPresetsRouter.getDefault Session sessionUserId hasProjectAccess).
Local Notation "'routerSetAsDefault'" :=
  (TableViewPresetsRouter.setAsDefault Session sessionUserId hasProjectAccess).
Local Notation "'routerClearDefault'" :=
  (TableViewPresetsRouter.clearDefault Session sessionUserId
     hasProjectAccess).
Local Notation "'routerCheckIsDefault'" :=
  (TableViewPresetsRouter.checkIsDefault Session hasProjectAccess).
Local Notation "'userIdFor'" :=
  (TableViewPresetsRouter.userIdFor Session sessionUserId).
Local Notation "'requiredScope'" := TableViewPresetsRouter.requiredScope.

(** The handler [setAsDefault] either leaves the table as it was or leaves
    what the service leaves, called for the session's user under some
    table name. *)
Lemma routerSetAsDefault_table db newId session input t :
  tableLeft
    (routerSetAsDefault getTableViewPresetsById db newId session input t)
    = t \/
  exists name,
    tableLeft
      (routerSetAsDefault getTableViewPresetsById db newId session input t) =
    tableAfter
      (setAsDefault db newId (SetDefaultViewInput.projectId input)
         (SetDefaultViewInput.viewId input) name
         (SetDefaultViewInput.scope input)
         (userIdFor session (SetDefaultViewInput.scope input)) t).
Proof.
  unfold TableViewPresetsRouter.setAsDefault, andThen,
    TableViewPresetsRouter.throwIfNoProjectAccess, tableLeft.
  destruct (hasProjectAccess session _ _); cbn [returning failing fst snd];
    [|now left].
  match goal with
  | |- context [if ?c then _ else _] => destruct c
  end.
  - destruct (getTableViewPresetsById _ _) as [name|];
      cbn [returning failing fst snd]; [|now left].
    destruct (negb (truthy (Some name))); cbn [failing snd]; [now left|].
    right. exists name. unfold awaitService.
    destruct (setAsDefault _ _ _ _ _ _ _ t) as [[[]|e] t']; reflexivity.
  - cbn [returning].
    destruct (SetDefaultViewInput.viewName input) as [name|];
      cbn [failing snd]; [|now left].
    destruct (negb (truthy (Some name))); cbn [failing snd]; [now left|].
    right. exists name. unfold awaitService.
    destruct (setAsDefault _ _ _ _ _ _ _ t) as [[[]|e] t']; reflexivity.
Qed.

Lemma routerClearDefault_table session input t :
  tableLeft (routerClearDefault session input t) = t \/
  tableLeft (routerClearDefault session input t) =
  tableAfter
    (clearDefault (ClearDefaultViewInput.projectId input)
       (ClearDefaultViewInput.viewName input)
       (ClearDefaultViewInput.scope input)
       (userIdFor session (ClearDefaultViewInput.scope input)) t).
Proof.
  unfold TableViewPresetsRouter.clearDefault, andThen,
    TableViewPresetsRouter.throwIfNoProjectAccess, tableLeft.
  destruct (hasProjectAccess session _ _); cbn [returning failing fst snd];
    [|now left].
  right. unfold awaitService.
  destruct (clearDefault _ _ _ _ t) as [[[]|e] t']; reflexivity.
Qed.

(** The effective user of a call made by the router is null or the
    session's user. *)
Lemma effectiveUser_userIdFor session s :
  effectiveUser s (userIdFor session s) = None \/
  effectiveUser s (userIdFor session s) = sessionUserId session.
Proof.
  destruct s; unfold effectiveUser, userIdToUse; cbn; [|now left].
  destruct (sessionUserId session); [now right | now left].
Qed.

Lemma foreign_row_off_key session s p n d :
  visibleTo (sessionUserId session) d = false ->
  DefaultView.key d <> (p, effectiveUser s (userIdFor session s), n).
Proof.
  intros Hvis Hk. apply key_eq_inv in Hk as [_ [Hu _]].
  unfold visibleTo in Hvis. rewrite Hu in Hvis.
  destruct (effectiveUser_userIdFor session s) as [E|E]; rewrite E in Hvis.
  - discriminate.
  - destruct (sessionUserId session) as [a|]; [|discriminate].
    now rewrite String.eqb_refl in Hvis.
Qed.

(** X13.  Through the router a session writes only under its own userId or
    under the project: on a table whose primary key holds, whatever the
    input, the handlers [setAsDefault] and [clearDefault] leave the rows
    that carry another user's userId exactly as they were, in their
    order. *)
Theorem router_writes_confined_to_session (db : Parents) (t : Table)
    (newId : string)
    (session : Session) (setInput : SetDefaultViewInput.t)
    (clearInput : ClearDefaultViewInput.t) :
  pkUnique t ->
  let foreign := fun d => negb (visibleTo (sessionUserId session) d) in
  filter foreign
    (tableLeft
       (routerSetAsDefault getTableViewPresetsById db newId session setInput t))
    = filter foreign t /\
  filter foreign (tableLeft (routerClearDefault session clearInput t)) =
    filter foreign t.
Proof.
  intros Hpk foreign. split.
  - destruct (routerSetAsDefault_table db newId session setInput t)
      as [E|[name E]]; rewrite E; auto.
    apply setAsDefault_keeps_filter; auto.
    intros d Hd. apply foreign_row_off_key.
    now apply negb_true_iff in Hd.
  - destruct (routerClearDefault_table session clearInput t) as [E|E];
      rewrite E; auto.
    apply clearDefault_keeps_filter.
    intros d Hd. apply foreign_row_off_key.
    now apply negb_true_iff in Hd.
Qed.

(** X14.  No handler reads or writes default views without the access its
    scope asks for: [delete], and [setAsDefault] and [clearDefault] with
    scope "project", ask for "TableViewPresets:CUD"; [getDefault],
    [checkIsDefault], and [setAsDefault] and [clearDefault] with scope
    "user", ask for "TableViewPresets:read".  Either the session has that
    access on the project of the input, or the handler fails as forbidden
    and the table is as it was. *)
Theorem router_requires_access (db : Parents) (t : Table) (newId : string)
    (session : Session) :
  (forall input,
     hasProjectAccess session (DeleteInput.projectId input)
       "TableViewPresets:CUD" = true \/
     routerDelete session input t = (Failed Forbidden, t)) /\
  (forall input,
     hasProjectAccess session (GetDefaultViewInput.projectId input)
       "TableViewPresets:read" = true \/
     routerGetDefault session input t = (Failed Forbidden, t)) /\
  (forall input,
     hasProjectAccess session (SetDefaultViewInput.projectId input)
       (match SetDefaultViewInput.scope input with
        | ScopeProject => "TableViewPresets:CUD"
        | ScopeUser => "TableViewPresets:read"
        end) = true \/
     routerSetAsDefault getTableViewPresetsById db newId session input t =
       (Failed Forbidden, t)) /\
  (forall input,
     hasProjectAccess session (ClearDefaultViewInput.projectId input)
       (match ClearDefaultViewInput.scope input with
        | ScopeProject => "TableViewPresets:CUD"
        | ScopeUser => "TableViewPresets:read"
        end) = true \/
     routerClearDefault session input t = (Failed Forbidden, t)) /\
  (forall input,
     hasProjectAccess session (CheckIsDefaultInput.projectId input)
       "TableViewPresets:read" = true \/
     routerCheckIsDefault session input t = (Failed Forbidden, t)).
Proof.
  repeat split; intros input.
  - unfold TableViewPresetsRouter.delete, andThen,
      TableViewPresetsRouter.throwIfNoProjectAccess.
    destruct (hasProjectAccess session _ _); [now left | now right].
  - unfold TableViewPresetsRouter.getDefault, andThen,
      TableViewPresetsRouter.throwIfNoProjectAccess.
    destruct (hasProjectAccess session _ _); [now left | now right].
  - unfold TableViewPresetsRouter.setAsDefault, andThen,
      TableViewPresetsRouter.throwIfNoProjectAccess,
      TableViewPresetsRouter.requiredScope.
    destruct (hasProjectAccess session _ _); [now left | now right].
  - unfold TableViewPresetsRouter.clearDefault, andThen,
      TableViewPresetsRouter.throwIfNoProjectAccess,
      TableViewPresetsRouter.requiredScope.
    destruct (hasProjectAccess session _ _); [now left | now right].
  - unfold TableViewPresetsRouter.checkIsDefault, andThen,
      TableViewPresetsRouter.throwIfNoProjectAccess.
    destruct (hasProjectAccess session _ _); [now left | now right].
Qed.

(** With access and a table name at hand the handler [setAsDefault] is the
    service call for the session's user. *)
Lemma routerSetAsDefault_named db newId session input name t :
  hasProjectAccess session (SetDefaultViewInput.projectId input)
    (requiredScope (SetDefaultViewInput.scope input)) = true ->
  SetDefaultViewInput.viewName input = Some name ->
  name <> "" ->
  routerSetAsDefault getTableViewPresetsById db newId session input t =
  match setAsDefault db newId (SetDefaultViewInput.projectId input)
          (SetDefaultViewInput.viewId input) name
          (SetDefaultViewInput.scope input)
          (userIdFor session (SetDefaultViewInput.scope input)) t with
  | (Fulfilled _, t') => (Returned {| success := true |}, t')
  | (Rejected e, t') => (Failed (Thrown e), t')
  end.
Proof.
  intros Hacc Hname Hne.
  unfold TableViewPresetsRouter.setAsDefault, andThen,
    TableViewPresetsRouter.throwIfNoProjectAccess.
  rewrite Hacc, Hname. unfold returning, failing. cbn [truthy negb andb].
  apply String.eqb_neq in Hne. rewrite Hne. cbn [negb andb].
  rewrite Hne. cbn [negb].
  unfold awaitService.
  destruct (setAsDefault _ _ _ _ _ _ _ t) as [[[]|e] t']; reflexivity.
Qed.

(** X15.  How the handler [setAsDefault] finds the table name, for a
    session with the access the scope asks for.  With a non-empty viewName
    in the input the preset service is not consulted: the handler does the
    same under any two preset services.  Without one, a system preset (a
    viewId starting with "__langfuse_") is refused with "viewName is
    required for system presets" and the table is as it was; for any other
    viewId the handler fails as the preset service does when the view
    cannot be resolved, and otherwise does exactly what it does when the
    input names the view's table. *)
Theorem routerSetAsDefault_viewName (db : Parents) (t : Table) (newId : string)
    (session : Session) (input : SetDefaultViewInput.t) :
  hasProjectAccess session (SetDefaultViewInput.projectId input)
    (requiredScope (SetDefaultViewInput.scope input)) = true ->
  (truthy (SetDefaultViewInput.viewName input) = true ->
   forall other : string -> string -> option string,
     routerSetAsDefault getTableViewPresetsById db newId session input t =
     routerSetAsDefault other db newId session input t) /\
  (truthy (SetDefaultViewInput.viewName input) = false ->
   String.prefix "__langfuse_" (SetDefaultViewInput.viewId input) = true ->
   routerSetAsDefault getTableViewPresetsById db newId session input t =
   (Failed (Thrown (JsError "viewName is required for system presets")),
    t)) /\
  (truthy (SetDefaultViewInput.viewName input) = false ->
   String.prefix "__langfuse_" (SetDefaultViewInput.viewId input) = false ->
   match getTableViewPresetsById (SetDefaultViewInput.viewId input)
           (SetDefaultViewInput.projectId input) with
   | None =>
       routerSetAsDefault getTableViewPresetsById db newId session input t =
       (Failed PresetServiceError, t)
   | Some tableName =>
       routerSetAsDefault getTableViewPresetsById db newId session input t =
       routerSetAsDefault getTableViewPresetsById db newId session
         (SetDefaultViewInput.mk (SetDefaultViewInput.projectId input)
            (SetDefaultViewInput.viewId input) (Some tableName)
            (SetDefaultViewInput.scope input)) t
   end).
Proof.
  intros Hacc. split; [|split].
  - intros Ht other.
    unfold TableViewPresetsRouter.setAsDefault, andThen,
      TableViewPresetsRouter.throwIfNoProjectAccess.
    rewrite Hacc, Ht. reflexivity.
  - intros Ht Hsys.
    unfold TableViewPresetsRouter.setAsDefault, andThen,
      TableViewPresetsRouter.throwIfNoProjectAccess.
    rewrite Hacc, Ht, Hsys. unfold returning, failing. cbn [negb andb].
    destruct (SetDefaultViewInput.viewName input) as [name|];
      [|reflexivity].
    rewrite Ht. reflexivity.
  - intros Ht Hsys.
    unfold TableViewPresetsRouter.setAsDefault, andThen,
      TableViewPresetsRouter.throwIfNoProjectAccess.
    cbn [SetDefaultViewInput.projectId SetDefaultViewInput.viewId
         SetDefaultViewInput.viewName SetDefaultViewInput.scope].
    rewrite Hacc, Ht, Hsys. unfold returning, failing. cbn [negb andb].
    destruct (getTableViewPresetsById _ _) as [tableName|];
      [|reflexivity].
    cbn [truthy]. destruct (tableName =? "") eqn:E; cbn [negb andb];
      rewrite ?E; reflexivity.
Qed.

Lemma routerClearDefault_eq session input t :
  hasProjectAccess session (ClearDefaultViewInput.projectId input)
    (requiredScope (ClearDefaultViewInput.scope input)) = true ->
  routerClearDefault session input t =
  match clearDefault (ClearDefaultViewInput.projectId input)
          (ClearDefaultViewInput.viewName input)
          (ClearDefaultViewInput.scope input)
          (userIdFor session (ClearDefaultViewInput.scope input)) t with
  | (Fulfilled _, t') => (Returned {| success := true |}, t')
  | (Rejected e, t') => (Failed (Thrown e), t')
  end.
Proof.
  intros Hacc.
  unfold TableViewPresetsRouter.clearDefault, andThen,
    TableViewPresetsRouter.throwIfNoProjectAccess.
  rewrite Hacc. unfold returning, awaitService.
  destruct (clearDefault _ _ _ _ t) as [[[]|e] t']; reflexivity.
Qed.

Lemma routerGetDefault_eq session input t :
  hasProjectAccess session (GetDefaultViewInput.projectId input)
    "TableViewPresets:read" = true ->
  routerGetDefault session input t =
  match getResolvedDefault (GetDefaultViewInput.projectId input)
          (GetDefaultViewInput.viewName input) (sessionUserId session) t with
  | (Fulfilled r, t') => (Returned r, t')
  | (Rejected e, t') => (Failed (Thrown e), t')
  end.
Proof.
  intros Hacc.
  unfold TableViewPresetsRouter.getDefault, andThen,
    TableViewPresetsRouter.throwIfNoProjectAccess.
  rewrite Hacc. reflexivity.
Qed.

(** X16.  A session without a user, or whose user id is empty, has no
    personal defaults: with the access asked for, [setAsDefault] (given a
    non-empty viewName) and [clearDefault] with scope "user" fail with the
    validation errors of the service and leave the table as it was, and
    [getDefault] never returns a result of scope "user". *)
Theorem router_session_without_user (db : Parents) (t : Table) (newId : string)
    (session : Session) :
  truthy (sessionUserId session) = false ->
  (forall p v name,
     hasProjectAccess session p "TableViewPresets:read" = true ->
     name <> "" ->
     routerSetAsDefault getTableViewPresetsById db newId session
       (SetDefaultViewInput.mk p v (Some name) ScopeUser) t =
     (Failed (Thrown (JsError "userId is required for user-level defaults")),
      t)) /\
  (forall p n,
     hasProjectAccess session p "TableViewPresets:read" = true ->
     routerClearDefault session (ClearDefaultViewInput.mk p n ScopeUser) t =
     (Failed
        (Thrown
           (JsError "userId is required for clearing user-level defaults")),
      t)) /\
  (forall input r,
     outcome (routerGetDefault session input t) = Returned (Some r) ->
     ResolvedDefault.scope r = ScopeProject).
Proof.
  intros Hno. split; [|split].
  - intros p v name Hacc Hne.
    rewrite (routerSetAsDefault_named db newId session _ name t); auto.
    cbn [SetDefaultViewInput.projectId SetDefaultViewInput.viewId
         SetDefaultViewInput.scope TableViewPresetsRouter.userIdFor].
    unfold setAsDefault. cbn [isUserScope andb]. now rewrite Hno.
  - intros p n Hacc. rewrite routerClearDefault_eq; auto.
    cbn [ClearDefaultViewInput.projectId ClearDefaultViewInput.viewName
         ClearDefaultViewInput.scope TableViewPresetsRouter.userIdFor].
    unfold clearDefault. cbn [isUserScope andb]. now rewrite Hno.
  - intros input r.
    unfold TableViewPresetsRouter.getDefault, andThen,
      TableViewPresetsRouter.throwIfNoProjectAccess, outcome.
    destruct (hasProjectAccess session _ _); [|discriminate].
    unfold returning, awaitService. rewrite getResolvedDefault_eq.
    rewrite Hno. cbn [fst].
    destruct (firstOfKey _ t); intros E; inversion E; reflexivity.
Qed.

(** X17.  A personal default set through the router is the one the router
    gives back: for a session with a non-empty user id and read access, a
    [setAsDefault] of scope "user" with a non-empty viewName, when the key
    (projectId, session user, viewName) has a row already or when the
    generated id is unused and the project and the session's user exist,
    returns success, and [getDefault] for the same project and table then
    returns the view with scope "user". *)
Theorem router_set_then_get (db : Parents) (t : Table) (newId : string)
    (session : Session) (uid p v name : string) :
  sessionUserId session = Some uid ->
  uid <> "" ->
  name <> "" ->
  hasProjectAccess session p "TableViewPresets:read" = true ->
  hasRow t (p, Some uid, name) \/
  (~ In newId (map DefaultView.id t) /\ parentsPresent db p (Some uid)) ->
  let r := routerSetAsDefault getTableViewPresetsById db newId session
             (SetDefaultViewInput.mk p v (Some name) ScopeUser) t in
  outcome r = Returned {| success := true |} /\
  outcome (routerGetDefault session (GetDefaultViewInput.mk p name)
             (tableLeft r)) =
  Returned (Some (ResolvedDefault.mk v ScopeUser)).
Proof.
  intros Hs Hu Hn Hacc Hok r. subst r.
  assert (Hv : passesValidation ScopeUser (Some uid) = true).
  { unfold passesValidation. cbn. apply String.eqb_neq in Hu.
    now rewrite Hu. }
  rewrite (routerSetAsDefault_named db newId session _ name t); auto.
  cbn [SetDefaultViewInput.projectId SetDefaultViewInput.viewId
       SetDefaultViewInput.scope TableViewPresetsRouter.userIdFor].
  rewrite Hs.
  destruct (setAsDefault_UpsertsAt db newId p v name ScopeUser (Some uid) t Hv)
    as [Hf _].
  pose proof (Hf Hok) as Hful.
  destruct (setAsDefault_first_row db newId p v name ScopeUser (Some uid) t
              Hv Hful) as [d [Hd Hvd]].
  unfold settled in Hful. unfold tableAfter in Hd.
  destruct (setAsDefault db newId p v name ScopeUser (Some uid) t)
    as [[[]|e] t']; cbn [fst snd] in *; [|discriminate].
  unfold outcome, tableLeft. cbn [fst snd]. split; [reflexivity|].
  rewrite routerGetDefault_eq by exact Hacc.
  cbn [GetDefaultViewInput.projectId GetDefaultViewInput.viewName].
  rewrite Hs, getResolvedDefault_eq. cbn [fst truthy].
  apply String.eqb_neq in Hu. rewrite Hu. cbn [negb].
  change (effectiveUser ScopeUser (Some uid)) with (Some uid) in Hd.
  rewrite Hd. now rewrite Hvd.
Qed.

Lemma routerDelete_eq session input t :
  hasProjectAccess session (DeleteInput.projectId input)
    "TableViewPresets:CUD" = true ->
  routerDelete session input t =
  (if deleteTableViewPresets (DeleteInput.tableViewPresetsId input)
        (DeleteInput.projectId input)
   then Returned {| success := true |}
   else Failed PresetServiceError,
   tableAfter
     (cleanupOrphanedDefaults (DeleteInput.tableViewPresetsId input) t)).
Proof.
  intros Hacc.
  unfold TableViewPresetsRouter.delete, andThen,
    TableViewPresetsRouter.throwIfNoProjectAccess.
  rewrite Hacc. unfold returning, failing, awaitService.
  rewrite cleanupOrphanedDefaults_eq. unfold tableAfter. cbn [snd].
  destruct (deleteTableViewPresets _ _); reflexivity.
Qed.

(** X18.  The handler [delete] removes the pointers before it deletes the
    preset, and by view id alone.  For a session with
    "TableViewPresets:CUD" on the project of the input, the table it leaves
    holds exactly the rows that do not point at the view, those of other
    projects included, whether the deletion of the preset then succeeds
    (the handler returns success) or throws (the handler fails); and
    [checkIsDefault] for that view, by any session with read access to any
    project, then reports no default at all. *)
Theorem routerDelete_cleans_up (t : Table) (session : Session)
    (input : DeleteInput.t) :
  hasProjectAccess session (DeleteInput.projectId input)
    "TableViewPresets:CUD" = true ->
  let r := routerDelete session input t in
  let v := DeleteInput.tableViewPresetsId input in
  outcome r =
    (if deleteTableViewPresets v (DeleteInput.projectId input)
     then Returned {| success := true |}
     else Failed PresetServiceError) /\
  tableLeft r = filter (fun d => negb (DefaultView.viewId d =? v)) t /\
  (forall d, In d (tableLeft r) <-> In d t /\ DefaultView.viewId d <> v) /\
  (forall session' p',
     hasProjectAccess session' p' "TableViewPresets:read" = true ->
     routerCheckIsDefault session' (CheckIsDefaultInput.mk p' v)
       (tableLeft r) =
     (Returned (IsDefaultResult.mk false false 0), tableLeft r)).
Proof.
  intros Hacc r v. subst r. rewrite (routerDelete_eq session input t Hacc).
  unfold outcome, tableLeft. cbn [fst snd]. fold v.
  rewrite cleanupOrphanedDefaults_eq. unfold tableAfter. cbn [snd].
  split; [reflexivity|]. split; [reflexivity|]. split.
  - intros d. rewrite filter_In, negb_true_iff, String.eqb_neq. tauto.
  - intros session' p' Hacc'.
    unfold TableViewPresetsRouter.checkIsDefault, andThen,
      TableViewPresetsRouter.throwIfNoProjectAccess.
    cbn [CheckIsDefaultInput.projectId CheckIsDefaultInput.viewId].
    rewrite Hacc'. unfold returning, awaitService.
    rewrite isViewDefault_eq.
    now rewrite (filter_none (fun d => DefaultView.viewId d =? v) t).
Qed.

(** X19.  Every handler keeps the constraints of the table: whatever the
    session, the input and the outcome, a table that satisfies the unique
    index and the primary key is left satisfying both, and [getDefault] and
    [checkIsDefault] leave the table as it was. *)
Theorem router_keeps_constraints (db : Parents) (t : Table) (newId : string)
    (session : Session) :
  keyUnique t /\ pkUnique t ->
  (forall input,
     keyUnique (tableLeft (routerDelete session input t)) /\
     pkUnique (tableLeft (routerDelete session input t))) /\
  (forall input,
     keyUnique
       (tableLeft
          (routerSetAsDefault getTableViewPresetsById db newId session input t))
     /\
     pkUnique
       (tableLeft
          (routerSetAsDefault getTableViewPresetsById db newId session input
             t)))
  /\
  (forall input,
     keyUnique (tableLeft (routerClearDefault session input t)) /\
     pkUnique (tableLeft (routerClearDefault session input t))) /\
  (forall input, tableLeft (routerGetDefault session input t) = t) /\
  (forall input, tableLeft (routerCheckIsDefault session input t) = t).
Proof.
  intros [Hk Hp]. split; [|split; [|split; [|split]]]; intros input.
  - unfold TableViewPresetsRouter.delete, andThen,
      TableViewPresetsRouter.throwIfNoProjectAccess, tableLeft.
    destruct (hasProjectAccess session _ _); [|now split].
    unfold returning, failing, awaitService.
    rewrite cleanupOrphanedDefaults_eq.
    destruct (deleteTableViewPresets _ _); cbn [snd];
      split; apply NoDup_map_filter; assumption.
  - destruct (routerSetAsDefault_table db newId session input t)
      as [E|[name E]]; rewrite E; [now split|].
    split; [now apply setAsDefault_keyUnique | now apply setAsDefault_pkUnique].
  - destruct (routerClearDefault_table session input t) as [E|E];
      rewrite E; [now split|].
    split.
    + apply (perform_keyUnique (ClearDefault _ _ _ _) t Hk).
    + apply (perform_pkUnique (ClearDefault _ _ _ _) t Hp).
  - unfold TableViewPresetsRouter.getDefault, andThen,
      TableViewPresetsRouter.throwIfNoProjectAccess, tableLeft.
    destruct (hasProjectAccess session _ _); [|reflexivity].
    unfold returning, awaitService. now rewrite getResolvedDefault_eq.
  - unfold TableViewPresetsRouter.checkIsDefault, andThen,
      TableViewPresetsRouter.throwIfNoProjectAccess, tableLeft.
    destruct (hasProjectAccess session _ _); reflexivity.
Qed.

(** X20.  The requests of the client hook carry the table the hook was
    created for as viewName.  For a non-empty table and a session with the
    access asked for, the handler [setAsDefault] on the hook's request does
    not consult the preset service, whatever the view (a system preset
    too): it returns success with the table the service's [setAsDefault]
    leaves for (projectId, table, session user), or fails with the
    service's rejection; and the handler [clearDefault] on the hook's
    request does the same with the service's [clearDefault]. *)
Theorem hook_requests_through_router (db : Parents) (t : Table) (newId : string)
    (session : Session) (props : useDefaultViewMutations.Props)
    (v : string) (s : DefaultViewScope) :
  useDefaultViewMutations.tableName props <> "" ->
  hasProjectAccess session (useDefaultViewMutations.projectId props)
    (requiredScope s) = true ->
  routerSetAsDefault getTableViewPresetsById db newId session
    (useDefaultViewMutations.setViewAsDefault props v s) t =
  match setAsDefault db newId (useDefaultViewMutations.projectId props) v
          (useDefaultViewMutations.tableName props) s (userIdFor session s) t
  with
  | (Fulfilled _, t') => (Returned {| success := true |}, t')
  | (Rejected e, t') => (Failed (Thrown e), t')
  end /\
  routerClearDefault session
    (useDefaultViewMutations.clearViewDefault props s) t =
  match clearDefault (useDefaultViewMutations.projectId props)
          (useDefaultViewMutations.tableName props) s (userIdFor session s) t
  with
  | (Fulfilled _, t') => (Returned {| success := true |}, t')
  | (Rejected e, t') => (Failed (Thrown e), t')
  end.
Proof.
  intros Hne Hacc. split.
  - now apply routerSetAsDefault_named.
  - now apply routerClearDefault_eq.
Qed.

End RouterProperties.

(** ** Instances

    A session is its optional user id, every access is granted, no stored
    preset resolves and no preset deletion succeeds. *)

Ltac distinct_entries :=
  cbn [map];
  repeat (constructor;
          [cbn [In]; intros H;
           repeat (destruct H as [H|H]; try discriminate H); exact H|]);
  constructor.

Lemma router_writes_confined_to_session_witness :
  let userOf := fun s : option string => s in
  let access := fun (_ : option string) (_ _ : string) => true in
  let lookup := fun _ _ : string => @None string in
  let t := [DefaultView.mk "dv1" "P" (Some "U1") "traces" "A";
            DefaultView.mk "dv2" "P" None "traces" "B"] in
  let foreign := fun d => negb (visibleTo (userOf (Some "U2")) d) in
  filter foreign
    (tableLeft
       (TableViewPresetsRouter.setAsDefault (option string) userOf access
          lookup exampleParents "dv3" (Some "U2")
          (SetDefaultViewInput.mk "P" "C" (Some "traces") ScopeUser) t))
    = filter foreign t /\
  filter foreign
    (tableLeft
       (TableViewPresetsRouter.clearDefault (option string) userOf access
          (Some "U2") (ClearDefaultViewInput.mk "P" "traces" ScopeProject) t))
    = filter foreign t.
Proof.
  intros userOf access lookup t foreign.
  apply (router_writes_confined_to_session (option string) userOf access
           lookup exampleParents t "dv3" (Some "U2")
           (SetDefaultViewInput.mk "P" "C" (Some "traces") ScopeUser)
           (ClearDefaultViewInput.mk "P" "traces" ScopeProject)).
  unfold pkUnique, t. distinct_entries.
Defined.

Lemma routerSetAsDefault_viewName_witness :
  let userOf := fun s : option string => s in
  let access := fun (_ : option string) (_ _ : string) => true in
  let lookup := fun _ _ : string => @None string in
  let input := SetDefaultViewInput.mk "P" "__langfuse_default__" None
                 ScopeProject in
  let run := fun g i =>
    TableViewPresetsRouter.setAsDefault (option string) userOf access g
        exampleParents
      "dv1" (Some "U1") i [] in
  (truthy (SetDefaultViewInput.viewName input) = true ->
   forall other : string -> string -> option string,
     run lookup input = run other input) /\
  (truthy (SetDefaultViewInput.viewName input) = false ->
   String.prefix "__langfuse_" (SetDefaultViewInput.viewId input) = true ->
   run lookup input =
   (Failed (Thrown (JsError "viewName is required for system presets")),
    [])) /\
  (truthy (SetDefaultViewInput.viewName input) = false ->
   String.prefix "__langfuse_" (SetDefaultViewInput.viewId input) = false ->
   match lookup (SetDefaultViewInput.viewId input)
           (SetDefaultViewInput.projectId input) with
   | None => run lookup input = (Failed PresetServiceError, [])
   | Some tableName =>
       run lookup input =
       run lookup
         (SetDefaultViewInput.mk (SetDefaultViewInput.projectId input)
            (SetDefaultViewInput.viewId input) (Some tableName)
            (SetDefaultViewInput.scope input))
   end).
Proof.
  intros userOf access lookup input run.
  apply (routerSetAsDefault_viewName (option string) userOf access lookup
      exampleParents
           [] "dv1" (Some "U1") input).
  reflexivity.
Defined.

Lemma router_session_without_user_witness :
  let userOf := fun s : option string => s in
  let access := fun (_ : option string) (_ _ : string) => true in
  let lookup := fun _ _ : string => @None string in
  let t := [DefaultView.mk "dv2" "P" None "traces" "B"] in
  (forall p v name,
     access None p "TableViewPresets:read" = true ->
     name <> "" ->
     TableViewPresetsRouter.setAsDefault (option string) userOf access lookup
         exampleParents
       "dv3" None (SetDefaultViewInput.mk p v (Some name) ScopeUser) t =
     (Failed (Thrown (JsError "userId is required for user-level defaults")),
      t)) /\
  (forall p n,
     access None p "TableViewPresets:read" = true ->
     TableViewPresetsRouter.clearDefault (option string) userOf access None
       (ClearDefaultViewInput.mk p n ScopeUser) t =
     (Failed
        (Thrown
           (JsError "userId is required for clearing user-level defaults")),
      t)) /\
  (forall input r,
     outcome (TableViewPresetsRouter.getDefault (option string) userOf
                access None input t) = Returned (Some r) ->
     ResolvedDefault.scope r = ScopeProject).
Proof.
  intros userOf access lookup t.
  apply (router_session_without_user (option string) userOf access lookup
      exampleParents
           t "dv3" None).
  reflexivity.
Defined.

Lemma router_set_then_get_witness :
  let userOf := fun s : option string => s in
  let access := fun (_ : option string) (_ _ : string) => true in
  let lookup := fun _ _ : string => @None string in
  let t := [DefaultView.mk "dv2" "P" None "traces" "B"] in
  let r := TableViewPresetsRouter.setAsDefault (option string) userOf access
             lookup exampleParents "dv3" (Some "U1")
             (SetDefaultViewInput.mk "P" "A" (Some "traces") ScopeUser) t in
  outcome r = Returned {| success := true |} /\
  outcome (TableViewPresetsRouter.getDefault (option string) userOf access
             (Some "U1") (GetDefaultViewInput.mk "P" "traces")
             (tableLeft r)) =
  Returned (Some (ResolvedDefault.mk "A" ScopeUser)).
Proof.
  intros userOf access lookup t.
  apply (router_set_then_get (option string) userOf access lookup
           exampleParents t "dv3" (Some "U1") "U1" "P" "A" "traces").
  - reflexivity.
  - discriminate.
  - discriminate.
  - reflexivity.
  - right. split.
    + simpl. intros [H|[]]. discriminate.
    + split; simpl; auto.
Defined.

Lemma routerDelete_cleans_up_witness :
  let userOf := fun s : option string => s in
  let access := fun (_ : option string) (_ _ : string) => true in
  let lookup := fun _ _ : string => @None string in
  let remove := fun _ _ : string => false in
  let t := [DefaultView.mk "dv1" "P" (Some "U1") "traces" "A";
            DefaultView.mk "dv2" "Q" None "traces" "A";
            DefaultView.mk "dv3" "Q" (Some "U2") "traces" "B"] in
  let input := DeleteInput.mk "P" "A" in
  let r := TableViewPresetsRouter.delete (option string) access remove
             (Some "U1") input t in
  let v := DeleteInput.tableViewPresetsId input in
  outcome r =
    (if remove v (DeleteInput.projectId input)
     then Returned {| success := true |}
     else Failed PresetServiceError) /\
  tableLeft r = filter (fun d => negb (DefaultView.viewId d =? v)) t /\
  (forall d, In d (tableLeft r) <-> In d t /\ DefaultView.viewId d <> v) /\
  (forall session' p',
     access session' p' "TableViewPresets:read" = true ->
     TableViewPresetsRouter.checkIsDefault (option string) access session'
       (CheckIsDefaultInput.mk p' v) (tableLeft r) =
     (Returned (IsDefaultResult.mk false false 0), tableLeft r)).
Proof.
  intros userOf access lookup remove t input.
  apply (routerDelete_cleans_up (option string) userOf access lookup remove
           t (Some "U1") input).
  reflexivity.
Defined.

Lemma hook_requests_through_router_witness :
  let userOf := fun s : option string => s in
  let access := fun (_ : option string) (_ _ : string) => true in
  let lookup := fun _ _ : string => @None string in
  let props := {| useDefaultViewMutations.tableName := "traces";
                  useDefaultViewMutations.projectId := "P" |} in
  TableViewPresetsRouter.setAsDefault (option string) userOf access lookup
      exampleParents
    "dv1" (Some "U1")
    (useDefaultViewMutations.setViewAsDefault props "__langfuse_default__"
       ScopeUser) [] =
  match setAsDefault exampleParents "dv1" "P" "__langfuse_default__"
          "traces" ScopeUser
          (Some "U1") [] with
  | (Fulfilled _, t') => (Returned {| success := true |}, t')
  | (Rejected e, t') => (Failed (Thrown e), t')
  end /\
  TableViewPresetsRouter.clearDefault (option string) userOf access
    (Some "U1") (useDefaultViewMutations.clearViewDefault props ScopeUser) []
  =
  match clearDefault "P" "traces" ScopeUser (Some "U1") [] with
  | (Fulfilled _, t') => (Returned {| success := true |}, t')
  | (Rejected e, t') => (Failed (Thrown e), t')
  end.
Proof.
  intros userOf access lookup props.
  apply (hook_requests_through_router (option string) userOf access lookup
      exampleParents
           [] "dv1" (Some "U1") props "__langfuse_default__" ScopeUser).
  - discriminate.
  - reflexivity.
Defined.

Lemma router_keeps_constraints_witness :
  let userOf := fun s : option string => s in
  let access := fun (_ : option string) (_ _ : string) => true in
  let lookup := fun _ _ : string => @None string in
  let remove := fun _ _ : string => false in
  let t := [DefaultView.mk "dv1" "P" (Some "U1") "traces" "A";
            DefaultView.mk "dv2" "P" None "traces" "B"] in
  let session := Some "U1" in
  (forall input,
     keyUnique (tableLeft (TableViewPresetsRouter.delete (option string)
                             access remove session input t)) /\
     pkUnique (tableLeft (TableViewPresetsRouter.delete (option string)
                            access remove session input t))) /\
  (forall input,
     keyUnique
       (tableLeft
          (TableViewPresetsRouter.setAsDefault (option string) userOf access
             lookup exampleParents "dv3" session input t))
     /\
     pkUnique
       (tableLeft
          (TableViewPresetsRouter.setAsDefault (option string) userOf access
             lookup exampleParents "dv3" session input t)))
  /\
  (forall input,
     keyUnique (tableLeft (TableViewPresetsRouter.clearDefault
                             (option string) userOf access session input t))
     /\
     pkUnique (tableLeft (TableViewPresetsRouter.clearDefault
                            (option string) userOf access session input t)))
  /\
  (forall input,
     tableLeft (TableViewPresetsRouter.getDefault (option string) userOf
                  access session input t) = t) /\
  (forall input,
     tableLeft (TableViewPresetsRouter.checkIsDefault (option string) access
                  session input t) = t).
Proof.
  intros userOf access lookup remove t session.
  apply (router_keeps_constraints (option string) userOf access lookup remove
      exampleParents
           t "dv3" session).
  split; [unfold keyUnique, t | unfold pkUnique, t]; distinct_entries.
Defined.
